(** * Hypothesis_Testing: the statistical core [MathUtils] in binary64

    The repository ships three copies of a small numerical library
    ([MathUtils]) under its calculator screens:

    - the chi-square-only copy (two files carry the same text), with
      [pdf(x, k)], [cdf(x, k)] and [ppf(targetArea, k)];
    - the generalised copy with [chiPdf], [chiCdf], [normPdf], [normCdf],
      [tPdf], [tCdf], [erf] and the facade [pdf], [cdf], [ppf] that
      dispatches on a family tag.

    JavaScript numbers are IEEE 754 binary64 values, and so are Rocq's
    primitive floats: [+], [-], [*], [/], comparisons and negation are the
    same operations, bit for bit.  [Math.sqrt] and [Math.abs] are taken to be
    the IEEE operations.  [Math.exp], [Math.sin] and [Math.pow] are left to
    the engine by the language definition; the development is parametric in
    them (class [MathEngine]), and a reference engine written in binary64
    is used wherever a closed numerical evaluation is wanted. *)

From Stdlib Require Import ZArith List String Bool Lia.
From Stdlib Require Import Uint63 Floats.
Import ListNotations.

Set Warnings "-inexact-float".

Local Open Scope float_scope.

(** ** JavaScript values and built-ins used by the library *)

(** The family tag reaches the facade as an arbitrary JavaScript value and is
    only ever inspected through [=== 'chi'] and [=== 't']. *)
Inductive jsval : Type :=
| JUndefined
| JNull
| JBool (b : bool)
| JNum (x : float)
| JStr (s : string).

(** [v === s] for a string literal [s]: strict equality never coerces. *)
Definition strict_eq_str (v : jsval) (s : string) : bool :=
  match v with
  | JStr s' => String.eqb s' s
  | _ => false
  end.

Definition Math_PI : float := 3.141592653589793.

(** [Math.max] on two arguments: NaN is contagious and [+0] is larger than
    [-0]. *)
Definition Math_max (a b : float) : float :=
  if is_nan a || is_nan b then nan
  else if a <? b then b
  else if b <? a then a
  else if get_sign a then b else a.

Definition float_of_nat (n : nat) : float :=
  of_uint63 (Uint63.of_Z (Z.of_nat n)).

(** The three functions whose results the language leaves to the engine. *)
Class MathEngine : Type := {
  Math_exp : float -> float;
  Math_sin : float -> float;
  Math_pow : float -> float -> float
}.

(** ** The generalised library *)

Module MathUtils.

Section WithEngine.
Context {E : MathEngine}.

(** *** gamma *)

Definition lanczos_p : list float :=
  [ 676.5203681218851; -1259.1392167224028; 771.32342877765313;
    -176.61502916214059; 12.507343278686905; -0.13857109526572012;
    9.9843695780195716e-6; 1.5056327351493116e-7 ].

(** [for (let i = 0; i < p.length; i++) x += p[i] / (z + i + 1)], with the
    remaining coefficients as the list and the counter [i] as a number. *)
Fixpoint lanczos_sum (ps : list float) (i z x : float) : float :=
  match ps with
  | [] => x
  | pi :: ps' => lanczos_sum ps' (i + 1) z (x + pi / (z + i + 1))
  end.

(** The body of [gamma] below its first line, entered with the caller's
    [z]. *)
Definition gamma_lanczos (z0 : float) : float :=
  let z := z0 - 1 in
  let x := lanczos_sum lanczos_p 0 z 0.99999999999980993 in
  let t := z + float_of_nat (List.length lanczos_p) - 0.5 in
  sqrt (2 * Math_PI) * Math_pow t (z + 0.5) * Math_exp (- t) * x.

(** [gamma] calls itself on [1 - z]; the recursion is modelled with a bound
    on the depth of the call stack: [gamma_rec d z] is [None] when the
    evaluation of [gamma(z)] needs more than [d] nested activations. *)
Fixpoint gamma_rec (depth : nat) (z : float) : option float :=
  match depth with
  | O => None
  | S d =>
    if z <? 0.5 then
      match gamma_rec d (1 - z) with
      | Some g => Some (Math_PI / (Math_sin (Math_PI * z) * g))
      | None => None
      end
    else Some (gamma_lanczos z)
  end.

(** Two activations always suffice (proved below, for every binary64 [z]
    and every engine), so this is the value [gamma(z)] returns. *)
Definition gamma (z : float) : float :=
  match gamma_rec 2 z with
  | Some g => g
  | None => nan
  end.

(** *** erf *)

Definition erf (x0 : float) : float :=
  let sign := if 0 <=? x0 then 1 else -1 in
  let x := abs x0 in
  let a1 := 0.254829592 in
  let a2 := -0.284496736 in
  let a3 := 1.421413741 in
  let a4 := -1.453152027 in
  let a5 := 1.061405429 in
  let p := 0.3275911 in
  let t := 1.0 / (1.0 + p * x) in
  let y := 1.0 - (((((a5 * t + a4) * t) + a3) * t + a2) * t + a1) * t
                 * Math_exp (- x * x) in
  sign * y.

(** *** Simpson loops

    [for (let i = i0; i < n; i += 2) sum += w * f(i * h)].  The counter is a
    number, as in the source; [fuel] bounds the number of iterations. *)
Fixpoint simpson_loop (fuel : nat) (f : float -> float)
         (w h n i sum : float) : float :=
  match fuel with
  | O => sum
  | S fuel' =>
    if i <? n then simpson_loop fuel' f w h n (i + 2) (sum + w * f (i * h))
    else sum
  end.

(** The values the counter takes on the iterations the loop runs. *)
Fixpoint loop_counters (fuel : nat) (n i : float) : list float :=
  match fuel with
  | O => []
  | S fuel' => if i <? n then i :: loop_counters fuel' n (i + 2) else []
  end.

(** Whether the loop leaves through its condition within [fuel] rounds. *)
Fixpoint loop_exits (fuel : nat) (n i : float) : bool :=
  if i <? n then
    match fuel with
    | O => false
    | S fuel' => loop_exits fuel' n (i + 2)
    end
  else true.

(** *** Chi-square *)

Definition chiPdf (x k : float) : float :=
  if (x <=? 0) || (k <=? 0) then 0
  else
    let numerator := Math_pow x ((k / 2) - 1) * Math_exp (- x / 2) in
    let denominator := Math_pow 2 (k / 2) * gamma (k / 2) in
    numerator / denominator.

Definition chiCdf (x k : float) : float :=
  if x <=? 0 then 0
  else
    let n := 100 in
    let h := x / n in
    let sum := chiPdf 0.0001 k + chiPdf x k in
    let sum := simpson_loop 100 (fun y => chiPdf y k) 4 h n 1 sum in
    let sum := simpson_loop 100 (fun y => chiPdf y k) 2 h (n - 1) 2 sum in
    (h / 3) * sum.

(** *** Standard normal *)

Definition normPdf (x : float) : float :=
  (1 / sqrt (2 * Math_PI)) * Math_exp (-0.5 * x * x).

Definition normCdf (x : float) : float :=
  0.5 * (1 + erf (x / sqrt 2)).

(** *** Student's t *)

Definition tPdf (x v : float) : float :=
  let num := gamma ((v + 1) / 2) in
  let den := sqrt (v * Math_PI) * gamma (v / 2) in
  let base := 1 + (x * x) / v in
  let pow := - (v + 1) / 2 in
  (num / den) * Math_pow base pow.

Definition tCdf (x v : float) : float :=
  if x =? 0 then 0.5
  else
    let limit := x in
    let n := 200 in
    let h := abs limit / n in
    let sum := tPdf 0 v + tPdf limit v in
    let sum := simpson_loop 100 (fun y => tPdf y v) 4 h n 1 sum in
    let sum := simpson_loop 100 (fun y => tPdf y v) 2 h (n - 1) 2 sum in
    let integral := (h / 3) * sum in
    if 0 <? x then 0.5 + integral else 0.5 - integral.

(** *** The facade *)

Definition pdf (x df : float) (type : jsval) : float :=
  if strict_eq_str type "chi" then chiPdf x df
  else if strict_eq_str type "t" then tPdf x df
  else normPdf x.

Definition cdf (x df : float) (type : jsval) : float :=
  if strict_eq_str type "chi" then chiCdf x df
  else if strict_eq_str type "t" then tCdf x df
  else normCdf x.

(** The body of [for (let i = 0; i < 50; i++)]: the counter is not read, so
    the loop is an iteration count. *)
Fixpoint bisect (iters : nat) (targetArea df : float) (type : jsval)
         (low high mid : float) : float :=
  match iters with
  | O => mid
  | S iters' =>
    let mid := (low + high) / 2 in
    let val := cdf mid df type in
    if val <? targetArea then bisect iters' targetArea df type mid high mid
    else bisect iters' targetArea df type low mid mid
  end.

Definition ppf (targetArea df : float) (type : jsval) : float :=
  if targetArea <=? 0 then (if strict_eq_str type "chi" then 0 else -10)
  else if 1 <=? targetArea then (if strict_eq_str type "chi" then 100 else 10)
  else
    let low := if strict_eq_str type "chi" then 0 else -10 in
    let high := if strict_eq_str type "chi" then Math_max 100 (df + 10) else 10 in
    bisect 50 targetArea df type low high 0.

End WithEngine.

End MathUtils.

(** ** The chi-square-only copy

    The two chi-square calculator screens carry the same [MathUtils] text:
    [gamma], [pdf] and [cdf] are the functions [gamma], [chiPdf] and [chiCdf]
    above under other names, and [ppf] has its own sentinel and bracket. *)

Module ChiSquareUtils.

Section WithEngine.
Context {E : MathEngine}.

Definition pdf (x k : float) : float := MathUtils.chiPdf x k.

Definition cdf (x k : float) : float := MathUtils.chiCdf x k.

Fixpoint bisect (iters : nat) (targetArea k low high mid : float) : float :=
  match iters with
  | O => mid
  | S iters' =>
    let mid := (low + high) / 2 in
    let val := cdf mid k in
    if val <? targetArea then bisect iters' targetArea k mid high mid
    else bisect iters' targetArea k low mid mid
  end.

Definition ppf (targetArea k : float) : float :=
  if targetArea <=? 0 then 0
  else
    let stdDev := sqrt (2 * k) in
    let high := Math_max 100 (k + 6 * stdDev) in
    if 1 <=? targetArea then high
    else bisect 50 targetArea k 0 high 0.

End WithEngine.

End ChiSquareUtils.

(** ** The calculator screens

    The screens keep their inputs as React state and recompute derived
    values in effects.  An effect is modelled as the function from the
    values it reads to the value it stores; where it returns without storing,
    the function returns the previous value.  [parseInt] and [parseFloat] are
    not modelled: the functions below take the numbers they returned. *)

(** [Math.min] on two arguments: NaN is contagious and [-0] is smaller than
    [+0]. *)
Definition Math_min (a b : float) : float :=
  if is_nan a || is_nan b then nan
  else if a <? b then a
  else if b <? a then b
  else if get_sign a then a else b.

(** Truthiness of a number: every number but NaN, [+0] and [-0]. *)
Definition truthy (x : float) : bool := negb (is_nan x || (x =? 0)).

(** Truthiness of a value. *)
Definition js_truthy (v : jsval) : bool :=
  match v with
  | JUndefined | JNull => false
  | JBool b => b
  | JNum x => truthy x
  | JStr s => negb (String.eqb s "")
  end.

(** [cv !== ""] for a text field's state. *)
Definition is_set (cv : string) : bool := negb (String.eqb cv "").

(** The chi-square screens ([App] beside the chi-square-only [MathUtils]). *)
Module ChiSquareApp.

Section WithEngine.
Context {E : MathEngine}.

(** [Math.max(1, (parseInt(n) || 2) - 1)], from the number [parseInt]
    returned. *)
Definition df (parsed_n : float) : float :=
  Math_max 1 ((if truthy parsed_n then parsed_n else 2) - 1).

(** The effect that recomputes the test statistic; [testStat] is the
    previous state. *)
Definition next_testStat (inputMode : jsval)
           (nVal sVal sigmaVal testStat : float) : float :=
  if truthy nVal && truthy sVal && truthy sigmaVal && negb (sigmaVal =? 0)
  then
    let sSquared :=
      if strict_eq_str inputMode "sd" then sVal * sVal else sVal in
    let sigmaSquared :=
      if strict_eq_str inputMode "sd" then sigmaVal * sigmaVal else sigmaVal in
    ((nVal - 1) * sSquared) / sigmaSquared
  else testStat.

(** The effect that recomputes the p-value, on the screen that shows one;
    [None] is [null]. *)
Definition next_pValue (cvLeft cvRight : string) (testStat df : float)
  : option float :=
  let isLeftSet := is_set cvLeft in
  let isRightSet := is_set cvRight in
  let pLow := ChiSquareUtils.cdf testStat df in
  let pHigh := 1 - pLow in
  if isLeftSet && isRightSet then
    Some (Math_min 1.0 (2 * Math_min pLow pHigh))
  else if isLeftSet then Some pLow
  else if isRightSet then Some pHigh
  else None.

End WithEngine.

End ChiSquareApp.

(** The generalised screen ([App] beside the generalised [MathUtils]). *)
Module HypothesisApp.

Section WithEngine.
Context {E : MathEngine}.

Definition df (mode : jsval) (parsed_n : float) : float :=
  if strict_eq_str mode "chi" || strict_eq_str mode "t_mean"
  then Math_max 1 ((if truthy parsed_n then parsed_n else 2) - 1)
  else 0.

(** The effect that recomputes the test statistic; [testStat] is the
    previous state, kept when no mode is selected. *)
Definition next_testStat (mode chiInputMode : jsval)
           (nNum samp pop extra testStat : float) : float :=
  if negb (js_truthy mode) then testStat
  else if strict_eq_str mode "chi" && truthy nNum && truthy samp && truthy pop
  then
    let sSq := if strict_eq_str chiInputMode "sd" then samp * samp else samp in
    let sigSq := if strict_eq_str chiInputMode "sd" then pop * pop else pop in
    if negb (sigSq =? 0) then ((nNum - 1) * sSq) / sigSq else 0
  else if strict_eq_str mode "t_mean" && truthy nNum && truthy extra
          && negb (extra =? 0)
  then (samp - pop) / (extra / sqrt nNum)
  else if strict_eq_str mode "z_mean" && truthy nNum && truthy extra
          && negb (extra =? 0)
  then (samp - pop) / (extra / sqrt nNum)
  else if strict_eq_str mode "z_prop" && truthy nNum && (0 <? pop) && (pop <? 1)
  then
    let num := samp - pop in
    let den := sqrt ((pop * (1 - pop)) / nNum) in
    if negb (den =? 0) then num / den else 0
  else 0.

(** The effect that recomputes the p-value, below its first two lines:
    [type] is the family of the selected mode; [None] is [null]. *)
Definition next_pValue (type : jsval) (cvLeft cvRight : string)
           (testStat df : float) : option float :=
  let isLeftSet := is_set cvLeft in
  let isRightSet := is_set cvRight in
  let pLow := MathUtils.cdf testStat df type in
  let pHigh := 1 - pLow in
  if isLeftSet && isRightSet then
    Some (Math_max 0 (Math_min 1.0 (2 * Math_min pLow pHigh)))
  else if isLeftSet then Some (Math_max 0 (Math_min 1.0 pLow))
  else if isRightSet then Some (Math_max 0 (Math_min 1.0 pHigh))
  else None.

(** The first lines of [shadeArea]: the range that is shaded, or [None]
    when it returns without drawing. *)
Definition shade_range (xMin xMax startX endX : float)
  : option (float * float) :=
  let s := Math_max xMin startX in
  let e := Math_min xMax endX in
  if e <=? s then None else Some (s, e).

End WithEngine.

End HypothesisApp.

(** ** A reference engine

    [Math.exp], [Math.sin] and [Math.pow] computed in binary64 by argument
    reduction and short series; on the arguments the library passes they
    agree with the correctly rounded values to a relative error of about
    [1e-15] ([pow] to about [1e-14] for large exponents).  The special cases
    of [pow] follow the language definition of exponentiation.  Every closed
    evaluation below (module [ReferenceRun]) is an evaluation on this
    engine; the margins there are many orders of magnitude wider than the
    engine's error. *)

Module RefEngine.

Definition ln2_hi : float := 0.693147180369123816490.
Definition ln2_lo : float := 1.90821492927058770002e-10.
Definition inv_ln2 : float := 1.44269504088896338700.
Definition pi_hi : float := 3.141592653589793.
Definition pi_lo : float := 1.2246467991473532e-16.

(** [2^52 + 2^51]: adding and subtracting it rounds to the nearest integer. *)
Definition magic : float := 6755399441055744.

Definition round_int (x : float) : float := (x + magic) - magic.

(** The integer value of a float holding a natural number below [2^53]. *)
Definition nat_of_float (x : float) : int :=
  let (m, e) := frshiftexp x in
  PrimInt63.lsr (normfr_mantissa m) (PrimInt63.sub 2154%uint63 e).

(** Horner evaluation of [sum_k c_k * y^k], coefficients from the highest. *)
Fixpoint horner (cs : list float) (y acc : float) : float :=
  match cs with
  | [] => acc
  | c :: cs' => horner cs' y (acc * y + c)
  end.

(** [1/k!] for [k] from 14 down to 0. *)
Definition exp_coeffs : list float :=
  [ 1 / 87178291200; 1 / 6227020800; 1 / 479001600; 1 / 39916800;
    1 / 3628800; 1 / 362880; 1 / 40320; 1 / 5040; 1 / 720; 1 / 120;
    1 / 24; 1 / 6; 0.5; 1; 1 ].

Definition exp (x : float) : float :=
  if is_nan x then nan
  else if 709.782712893384 <? x then infinity
  else if x <? -745.2 then 0
  else
    let k := round_int (x * inv_ln2) in
    let r := (x - k * ln2_hi) - k * ln2_lo in
    let p := horner exp_coeffs r 0 in
    ldshiftexp p (nat_of_float (k + 2101)).

(** [1/(2k+1)] for [k] from 12 down to 0: the series of [atanh]. *)
Definition atanh_coeffs : list float :=
  [ 1 / 25; 1 / 23; 1 / 21; 1 / 19; 1 / 17; 1 / 15; 1 / 13; 1 / 11;
    1 / 9; 1 / 7; 1 / 5; 1 / 3; 1 ].

(** Natural logarithm of a positive finite number. *)
Definition ln (x : float) : float :=
  let (m0, e0) := frshiftexp x in
  let small := m0 <? 0.70710678118654752 in
  let m := if small then 2 * m0 else m0 in
  let e := (of_uint63 e0 - 2101) - (if small then 1 else 0) in
  let s := (m - 1) / (m + 1) in
  let q := horner atanh_coeffs (s * s) 0 in
  e * ln2_hi + (2 * s * q + e * ln2_lo).

Definition is_integer (y : float) : bool :=
  let a := abs y in
  if 4503599627370496 <=? a then negb (is_infinity y)
  else round_int a =? a.

Definition is_odd_integer (y : float) : bool :=
  is_integer y && negb (is_integer (y / 2)).

(** [(-1)^k/(2k+1)!] for [k] from 9 down to 0: the series of [sin r / r] in
    [r^2]. *)
Definition sin_coeffs : list float :=
  [ -1 / 121645100408832000; 1 / 355687428096000; -1 / 1307674368000;
    1 / 6227020800; -1 / 39916800; 1 / 362880; -1 / 5040; 1 / 120;
    -1 / 6; 1 ].

Definition sin (x : float) : float :=
  if is_nan x || is_infinity x then nan
  else
    let k := round_int (x / pi_hi) in
    let r := (x - k * pi_hi) - k * pi_lo in
    let s := r * horner sin_coeffs (r * r) 0 in
    if is_odd_integer k then - s else s.

Definition pow (x y : float) : float :=
  if is_nan y then nan
  else if y =? 0 then 1
  else if is_nan x then nan
  else if is_infinity x then
    if 0 <? x then (if 0 <? y then infinity else 0)
    else if 0 <? y then (if is_odd_integer y then neg_infinity else infinity)
         else (if is_odd_integer y then neg_zero else 0)
  else if x =? 0 then
    if get_sign x then
      if 0 <? y then (if is_odd_integer y then neg_zero else 0)
      else (if is_odd_integer y then neg_infinity else infinity)
    else if 0 <? y then 0 else infinity
  else if is_infinity y then
    if abs x =? 1 then nan
    else if xorb (1 <? abs x) (0 <? y) then 0 else infinity
  else if x <? 0 then
    if is_integer y then
      let r := exp (y * ln (abs x)) in
      if is_odd_integer y then - r else r
    else nan
  else exp (y * ln x).

#[export] Instance engine : MathEngine :=
  {| Math_exp := exp; Math_sin := sin; Math_pow := pow |}.

End RefEngine.

(** ** Properties the specification states, as executable checks *)

Module Spec.

Section WithEngine.
Context {E : MathEngine}.

(** Interior node indices of a composite rule with [n] subintervals. *)
Definition odd_indices (n : nat) : list nat := filter Nat.odd (seq 1 (n - 1)).
Definition even_indices (n : nat) : list nat := filter Nat.even (seq 1 (n - 1)).

(** Composite Simpson's rule for [f] over [[0, a]] with [n] subintervals, in
    the words of the specification: [h = a/n], the two endpoints (the first
    one the centre [0] itself) with weight 1, the odd-indexed interior nodes
    with weight 4, the even-indexed ones with weight 2, and [(h/3)] times the
    weighted sum.  The terms are added in that order. *)
Definition simpson_from_zero (f : float -> float) (a : float) (n : nat) : float :=
  let h := a / float_of_nat n in
  let ends := f 0 + f a in
  let odds :=
    fold_left (fun s i => s + 4 * f (float_of_nat i * h)) (odd_indices n) ends in
  let all :=
    fold_left (fun s i => s + 2 * f (float_of_nat i * h)) (even_indices n) odds in
  (h / 3) * all.

(** The families, degrees of freedom and probabilities the round-trip
    property samples. *)
Definition families : list jsval := [JStr "chi"; JStr "t"; JStr "normal"].
Definition sample_dfs : list float := [1; 5; 30].
Definition sample_ps : list float := [0.01; 0.25; 0.5; 0.75; 0.99].

Definition round_trip_error (p df : float) (family : jsval) : float :=
  abs (MathUtils.cdf (MathUtils.ppf p df family) df family - p).

Definition round_trip_ok (p df : float) (family : jsval) : bool :=
  round_trip_error p df family <=? 1e-3.

(** The pairs the fixed bracket [[-10, 10]] cannot serve: Student's t with
    one degree of freedom has its 1% and 99% quantiles near -31.8 and 31.8. *)
Definition outside_bracket (p df : float) (family : jsval) : Prop :=
  family = JStr "t" /\ df = 1 /\ (p = 0.01 \/ p = 0.99).

Definition close_to (y target tol : float) : bool := abs (y - target) <=? tol.

Definition in_unit_interval (y : float) : bool := (0 <=? y) && (y <=? 1).

(** Query points in the central range of all three families. *)
Definition central_xs : list float := [-3; -2; -1; -0.5; 0; 0.5; 1; 1.5].

(** Query points reaching into the tails, up to ten units from the centre. *)
Definition wide_xs : list float :=
  [-10; -5; -3; -2; -1; -0.5; 0; 0.5; 1; 1.5; 2; 3; 4; 5; 6; 8; 10].

(** Query points for the densities, far tails included. *)
Definition density_xs : list float :=
  [-10; -5; -3; -2; -1; -0.5; 0; 0.5; 1; 1.5; 2; 3; 5; 10; 20; 50; 100].

End WithEngine.

End Spec.

(** ** Proof automation *)

(** Splits the membership hypotheses of a sampled property into one goal
    per sample. *)
Ltac each_sample :=
  repeat match goal with
         | H : _ \/ _ |- _ => destruct H as [<- | H]
         | H : False |- _ => contradiction H
         end.

(** ** Shapes of binary64 values used in the rounding argument *)

(** A binary64 value that is at least one half: [+infinity], or a positive
    finite one whose exponent and mantissa are not below those of [0.5]. *)
Definition ge_half (r : spec_float) : Prop :=
  r = S754_infinity false
  \/ exists m e, r = S754_finite false m e
                 /\ (-53 < e \/ (e = -53 /\ 4503599627370496 <= Zpos m))%Z.

Definition SFhalf : spec_float := S754_finite false 4503599627370496 (-53).
Definition SFone : spec_float := S754_finite false 4503599627370496 (-52).

(** The largest binary64 value below one half, [0.5 - 2^-54]. *)
Definition below_half : float := 0x1.fffffffffffffp-2.


(** The bisection of [ppf] when no comparison [val < targetArea] succeeds:
    [high] comes down to [mid] in every round. *)
Fixpoint halve_high (iters : nat) (low high mid : float) : float :=
  match iters with
  | O => mid
  | S iters' => let mid := (low + high) / 2 in halve_high iters' low mid mid
  end.

(** * Facts about binary64 arithmetic

    The primitive operations are specified by their images under [Prim2SF]
    ([sub_spec], [mul_spec], [ltb_spec], ...).  Two kinds of facts are
    needed: sign symmetries of the product, read off the specification by
    cases, and one rounding fact, that [z < 0.5] gives [1 - z >= 0.5], for
    which the rounded mantissa is followed through [binary_round]. *)

Module Binary64.

Local Open Scope Z_scope.

Lemma digits2_pos_bounds (m : positive) :
  2 ^ (Zpos (digits2_pos m) - 1) <= Zpos m < 2 ^ Zpos (digits2_pos m).
Proof.
  induction m as [m IH | m IH | ]; cbn [digits2_pos].
  - rewrite Pos2Z.inj_succ.
    replace (Z.succ (Zpos (digits2_pos m)) - 1) with (Z.succ (Zpos (digits2_pos m) - 1)) by lia.
    rewrite !Z.pow_succ_r by lia. lia.
  - rewrite Pos2Z.inj_succ.
    replace (Z.succ (Zpos (digits2_pos m)) - 1) with (Z.succ (Zpos (digits2_pos m) - 1)) by lia.
    rewrite !Z.pow_succ_r by lia. lia.
  - cbn. lia.
Qed.

Lemma digits2_pos_lower (m : positive) (n : Z) :
  2 ^ n <= Zpos m -> n < Zpos (digits2_pos m).
Proof.
  intros H. destruct (digits2_pos_bounds m) as [_ Hu].
  destruct (Z.lt_ge_cases n (Zpos (digits2_pos m))) as [|Hge]; [assumption|].
  exfalso. apply (Z.pow_le_mono_r 2) in Hge; lia.
Qed.

Lemma digits2_pos_upper (m : positive) (n : Z) :
  0 <= n -> Zpos m < 2 ^ n -> Zpos (digits2_pos m) <= n.
Proof.
  intros Hn H. destruct (digits2_pos_bounds m) as [Hl _].
  destruct (Z.le_gt_cases (Zpos (digits2_pos m)) n) as [|Hgt]; [assumption|].
  exfalso. assert (n <= Zpos (digits2_pos m) - 1) as Hle by lia.
  apply (Z.pow_le_mono_r 2) in Hle; lia.
Qed.

Lemma iter_xO_spec (m p : positive) :
  Zpos (Pos.iter xO m p) = Zpos m * 2 ^ Zpos p.
Proof.
  induction p as [|p IH] using Pos.peano_ind.
  - cbn. lia.
  - rewrite Pos.iter_succ, Pos2Z.inj_xO, IH, Pos2Z.inj_succ, Z.pow_succ_r by lia. lia.
Qed.

Lemma iter_xO_digits (m p : positive) :
  digits2_pos (Pos.iter xO m p) = (digits2_pos m + p)%positive.
Proof.
  induction p as [|p IH] using Pos.peano_ind.
  - cbn. lia.
  - rewrite Pos.iter_succ. cbn [digits2_pos]. rewrite IH. lia.
Qed.

(** [iter_pos] is iteration a [Pos.to_nat] number of times. *)
Lemma iter_pos_nat {A : Type} (f : A -> A) (p : positive) (x : A) :
  iter_pos f p x = Nat.iter (Pos.to_nat p) f x.
Proof.
  revert x. induction p as [p IH | p IH | ]; intros x; cbn [iter_pos].
  - rewrite !IH, Pos2Nat.inj_xI.
    replace (S (2 * Pos.to_nat p))%nat with (Pos.to_nat p + S (Pos.to_nat p))%nat by lia.
    rewrite Nat.iter_add. f_equal. rewrite Nat.iter_succ_r. reflexivity.
  - rewrite !IH, Pos2Nat.inj_xO.
    replace (2 * Pos.to_nat p)%nat with (Pos.to_nat p + Pos.to_nat p)%nat by lia.
    rewrite Nat.iter_add. reflexivity.
  - reflexivity.
Qed.

(** One right shift of a mantissa of at least two digits drops one digit. *)
Lemma shr_1_digits (mrs : shr_record) (m : positive) :
  shr_m mrs = Zpos m -> (1 < digits2_pos m)%positive ->
  exists m', shr_m (shr_1 mrs) = Zpos m'
             /\ Zpos (digits2_pos m') = Zpos (digits2_pos m) - 1.
Proof.
  destruct mrs as [mm r s]. cbn [shr_m]. intros -> Hd.
  destruct m as [m | m | ]; cbn [shr_1 shr_m digits2_pos] in *.
  - exists m. split; [reflexivity | lia].
  - exists m. split; [reflexivity | lia].
  - lia.
Qed.

Lemma shr_nat_digits (n : nat) (mrs : shr_record) (m : positive) :
  shr_m mrs = Zpos m -> Z.of_nat n < Zpos (digits2_pos m) ->
  exists m', shr_m (Nat.iter n shr_1 mrs) = Zpos m'
             /\ Zpos (digits2_pos m') = Zpos (digits2_pos m) - Z.of_nat n.
Proof.
  induction n as [|n IH]; intros Hm Hn.
  - exists m. cbn. split; [assumption | lia].
  - destruct IH as (m1 & Hm1 & Hd1); [assumption | lia |].
    cbn [Nat.iter].
    destruct (shr_1_digits (Nat.iter n shr_1 mrs) m1 Hm1) as (m2 & Hm2 & Hd2); [lia|].
    exists m2. split; [assumption | lia].
Qed.

Lemma SFcompare_pos (m1 : positive) (e1 : Z) (m2 : positive) (e2 : Z) :
  SFcompare (S754_finite false m1 e1) (S754_finite false m2 e2)
  = Some match e1 ?= e2 with
         | Lt => Lt
         | Gt => Gt
         | Eq => Zpos m1 ?= Zpos m2
         end.
Proof. reflexivity. Qed.

Lemma ge_half_leb (r : spec_float) : ge_half r -> SFleb SFhalf r = true.
Proof.
  intros [-> | (m & e & -> & H)]; [reflexivity|].
  unfold SFleb, SFhalf. rewrite SFcompare_pos.
  destruct (Z.compare_spec (-53) e); try lia; try reflexivity.
  destruct (Z.compare_spec 4503599627370496 (Zpos m)); try reflexivity. lia.
Qed.

Lemma ge_half_ltb (r : spec_float) : ge_half r -> SFltb r SFhalf = false.
Proof.
  intros [-> | (m & e & -> & H)]; [reflexivity|].
  unfold SFltb, SFhalf. rewrite SFcompare_pos.
  destruct (Z.compare_spec e (-53)); try lia; try reflexivity.
  destruct (Z.compare_spec (Zpos m) 4503599627370496); try reflexivity. lia.
Qed.

Lemma digits53_bounds (m : positive) :
  Zpos (digits2_pos m) = 53 ->
  4503599627370496 <= Zpos m < 9007199254740992.
Proof.
  intros H. pose proof (digits2_pos_bounds m) as Hb. rewrite H in Hb. exact Hb.
Qed.

Lemma bounds_digits53 (m : positive) :
  4503599627370496 <= Zpos m -> Zpos m <= 9007199254740992 ->
  53 <= Zpos (digits2_pos m) <= 54.
Proof.
  intros Hl Hu. split.
  - pose proof (digits2_pos_lower m 52 Hl). lia.
  - apply digits2_pos_upper; [lia|].
    change (2 ^ 54) with 18014398509481984. lia.
Qed.

Lemma fexp_normal (e : Z) : -1021 <= e -> fexp prec emax e = e - 53.
Proof. unfold fexp, SpecFloat.emin, prec, emax. lia. Qed.

(** Rounding a mantissa that already has 53 digits changes nothing. *)
Lemma binary_round_aux_exact (mz : positive) (E : Z) :
  Zpos (digits2_pos mz) = 53 -> -53 <= E ->
  ge_half (binary_round_aux prec emax false (Zpos mz) E loc_Exact).
Proof.
  intros Hd HE. unfold binary_round_aux, shr_fexp. cbn [Zdigits2].
  rewrite Hd, fexp_normal by lia.
  replace (53 + E - 53 - E) with 0 by lia.
  cbn [shr shr_record_of_loc shr_m loc_of_shr_record round_nearest_even Zdigits2].
  rewrite Hd, fexp_normal by lia.
  replace (53 + E - 53 - E) with 0 by lia.
  cbn [shr shr_record_of_loc shr_m].
  destruct (E <=? emax - prec); [|left; reflexivity].
  right. exists mz, E. split; [reflexivity|].
  destruct (digits53_bounds mz Hd). lia.
Qed.

(** Rounding to nearest a positive number that is at least one half gives
    at least one half. *)
Lemma binary_round_aux_ge_half (M : positive) (ex : Z) :
  53 <= Zpos (digits2_pos M) -> 0 <= Zpos (digits2_pos M) + ex ->
  ge_half (binary_round_aux prec emax false (Zpos M) ex loc_Exact).
Proof.
  intros Hd Hex.
  destruct (Z.eq_dec (Zpos (digits2_pos M)) 53) as [H53 | Hn53].
  { apply binary_round_aux_exact; [assumption | lia]. }
  unfold binary_round_aux, shr_fexp at 1. cbn [Zdigits2].
  rewrite fexp_normal by lia.
  destruct (Zpos (digits2_pos M) + ex - 53 - ex) as [|p|p] eqn:Hk; try lia.
  cbn [shr shr_record_of_loc]. rewrite iter_pos_nat.
  destruct (shr_nat_digits (Pos.to_nat p)
              {| shr_m := Zpos M; shr_r := false; shr_s := false |} M eq_refl)
    as (m1 & Hm1 & Hd1).
  { rewrite positive_nat_Z. lia. }
  rewrite positive_nat_Z in Hd1.
  assert (Zpos (digits2_pos m1) = 53) as Hd53 by lia.
  destruct (digits53_bounds m1 Hd53) as [Hl1 Hu1].
  set (mrs := Nat.iter (Pos.to_nat p) shr_1 _) in *.
  assert (exists m2, round_nearest_even (shr_m mrs) (loc_of_shr_record mrs) = Zpos m2
                     /\ Zpos m1 <= Zpos m2 <= Zpos m1 + 1) as (m2 & Hm2 & Hb2).
  { rewrite Hm1. unfold round_nearest_even.
    destruct (loc_of_shr_record mrs) as [|[| |]].
    - exists m1. split; [reflexivity | lia].
    - destruct (Z.even (Zpos m1)).
      + exists m1. split; [reflexivity | lia].
      + exists (m1 + 1)%positive. split; [reflexivity | lia].
    - exists m1. split; [reflexivity | lia].
    - exists (m1 + 1)%positive. split; [reflexivity | lia]. }
  rewrite Hm2. unfold shr_fexp. cbn [Zdigits2].
  set (E := ex + Zpos p) in *.
  assert (-53 < E \/ E = -53) as HE by lia.
  destruct (bounds_digits53 m2) as [Hd2l Hd2u]; [lia | lia |].
  rewrite fexp_normal by lia.
  assert (Zpos (digits2_pos m2) + E - 53 - E = 0
          \/ Zpos (digits2_pos m2) + E - 53 - E = 1) as [-> | ->] by lia.
  - cbn [shr shr_record_of_loc shr_m].
    destruct (E <=? emax - prec); [|left; reflexivity].
    right. exists m2, E. split; [reflexivity | lia].
  - cbn [shr shr_record_of_loc iter_pos].
    destruct (shr_1_digits {| shr_m := Zpos m2; shr_r := false; shr_s := false |}
                m2 eq_refl) as (m3 & Hm3 & Hd3); [lia|].
    rewrite Hm3.
    destruct (E + 1 <=? emax - prec); [|left; reflexivity].
    right. exists m3, (E + 1). split; [reflexivity | lia].
Qed.

Lemma binary_round_ge_half (M : positive) (ex : Z) :
  0 <= Zpos (digits2_pos M) + ex ->
  ge_half (binary_round prec emax false M ex).
Proof.
  intros Hex. unfold binary_round.
  rewrite fexp_normal by lia. unfold shl_align.
  destruct (Zpos (digits2_pos M) + ex - 53 - ex) as [|p|p] eqn:Hk.
  - apply binary_round_aux_ge_half; lia.
  - apply binary_round_aux_ge_half; lia.
  - apply binary_round_aux_exact; [|lia].
    rewrite iter_xO_digits, Pos2Z.inj_add. lia.
Qed.

Lemma shl_align_fst (m : positive) (e ez : Z) :
  ez <= e -> Zpos (fst (shl_align m e ez)) = Zpos m * 2 ^ (e - ez).
Proof.
  intros Hle. unfold shl_align.
  destruct (ez - e) as [|p|p] eqn:Hk; try lia; cbn [fst].
  - replace (e - ez) with 0 by lia. lia.
  - rewrite iter_xO_spec. replace (e - ez) with (Zpos p) by lia. reflexivity.
Qed.

Lemma Prim2SF_one : Prim2SF 1 = SFone.
Proof. vm_compute. reflexivity. Qed.

Lemma Prim2SF_half : Prim2SF 0.5 = SFhalf.
Proof. vm_compute. reflexivity. Qed.

Lemma Prim2SF_zero : Prim2SF 0 = S754_zero false.
Proof. vm_compute. reflexivity. Qed.

Lemma valid_finite_digits (s : bool) (m : positive) (e : Z) :
  valid_binary (S754_finite s m e) = true -> Zpos (digits2_pos m) <= 53.
Proof.
  cbn [SpecFloat.valid_binary]. unfold bounded, canonical_mantissa.
  intros H. apply andb_prop in H. destruct H as [H _].
  apply Z.eqb_eq in H. revert H.
  unfold fexp, SpecFloat.emin, prec, emax. lia.
Qed.

(** The one subtraction the reflection branch of [gamma] performs. *)
Lemma SFsub_one_ge_half (x : spec_float) :
  valid_binary x = true -> SFltb x SFhalf = true ->
  ge_half (SF64sub SFone x).
Proof.
  intros Hv Hlt. destruct x as [s | s | | s m e].
  - right. exists 4503599627370496%positive, (-52). split; [reflexivity | lia].
  - destruct s; [left; reflexivity | discriminate Hlt].
  - discriminate Hlt.
  - pose proof (valid_finite_digits s m e Hv) as Hdm.
    pose proof (digits2_pos_bounds m) as [_ Hmu].
    unfold SF64sub, SFsub, SFone.
    set (ez := Z.min (-52) e).
    assert (Zpos (fst (shl_align 4503599627370496 (-52) ez)) = 2 ^ (- ez)) as HA.
    { rewrite shl_align_fst by lia.
      change (Zpos 4503599627370496) with (2 ^ 52).
      rewrite <- Z.pow_add_r by lia. f_equal. lia. }
    assert (Zpos (fst (shl_align m e ez)) = Zpos m * 2 ^ (e - ez)) as HB
      by (apply shl_align_fst; lia).
    assert (2 ^ (- ez) = 2 * 2 ^ (- ez - 1)) as Hpow.
    { rewrite <- Z.pow_succ_r by lia. f_equal. lia. }
    assert (0 < 2 ^ (- ez - 1)) as Hpos by (apply Z.pow_pos_nonneg; lia).
    assert (0 < 2 ^ (e - ez)) as Hpos' by (apply Z.pow_pos_nonneg; lia).
    destruct s; cbn [cond_Zopp].
    + (* a negative [x]: the difference is a sum *)
      remember (Zpos (fst (shl_align 4503599627370496 (-52) ez))
                - - Zpos (fst (shl_align m e ez))) as Mz eqn:HM.
      assert (2 ^ (- ez - 1) <= Mz) as Hlow by nia.
      destruct Mz as [|Mp|Mp]; try lia.
      cbn [binary_normalize]. apply binary_round_ge_half.
      pose proof (digits2_pos_lower Mp (- ez - 1) Hlow). lia.
    + (* a positive [x] below one half *)
      unfold SFltb, SFhalf in Hlt. rewrite SFcompare_pos in Hlt.
      assert (e < -53 \/ (e = -53 /\ Zpos m < 4503599627370496)) as He.
      { destruct (Z.compare_spec e (-53)); try discriminate Hlt; [right|left]; [|lia].
        split; [assumption|].
        destruct (Z.compare_spec (Zpos m) 4503599627370496); try discriminate Hlt.
        assumption. }
      assert (ez = e) as Hez by lia.
      assert (Zpos m <= 2 ^ (- ez - 1)) as Hm.
      { rewrite Hez. destruct He as [He | [-> He]].
        - apply Z.lt_le_incl, (Z.lt_le_trans _ _ _ Hmu), Z.pow_le_mono_r; lia.
        - change (2 ^ (- -53 - 1)) with 4503599627370496. lia. }
      remember (Zpos (fst (shl_align 4503599627370496 (-52) ez))
                - Zpos (fst (shl_align m e ez))) as Mz eqn:HM.
      assert (2 ^ (- ez - 1) <= Mz) as Hlow.
      { rewrite HM, HA, HB, Hpow. replace (e - ez) with 0 by lia.
        rewrite Z.pow_0_r. lia. }
      destruct Mz as [|Mp|Mp]; try lia.
      cbn [binary_normalize]. apply binary_round_ge_half.
      pose proof (digits2_pos_lower Mp (- ez - 1) Hlow). lia.
Qed.

Local Open Scope float_scope.

(** In binary64, [z < 0.5] forces [1 - z >= 0.5]: the difference is
    rounded, and the rounding cannot fall below the representable bound. *)
Lemma sub_one_ge_half (z : float) :
  (z <? 0.5) = true -> (0.5 <=? 1 - z) = true /\ (1 - z <? 0.5) = false.
Proof.
  rewrite !ltb_spec, leb_spec, sub_spec, Prim2SF_one, Prim2SF_half.
  intros H.
  pose proof (SFsub_one_ge_half (Prim2SF z) (Prim2SF_valid z) H) as Hge.
  split; [apply ge_half_leb | apply ge_half_ltb]; assumption.
Qed.

(** Comparisons with zero and one. *)

Lemma ltb_zero_eqb (x : float) : (0 <? x) = true -> (x =? 0) = false.
Proof.
  rewrite ltb_spec, eqb_spec, Prim2SF_zero.
  destruct (Prim2SF x) as [s | [|] | | [|] m e]; cbn; congruence.
Qed.

Lemma ltb_neg_eqb (x : float) :
  (x <? 0) = true -> (x =? 0) = false /\ (0 <? x) = false.
Proof.
  rewrite !ltb_spec, eqb_spec, Prim2SF_zero.
  destruct (Prim2SF x) as [s | [|] | | [|] m e]; cbn; split; congruence.
Qed.

Lemma leb_one_leb_zero (p : float) : (1 <=? p) = true -> (p <=? 0) = false.
Proof.
  rewrite !leb_spec, Prim2SF_zero, Prim2SF_one. unfold SFone.
  destruct (Prim2SF p) as [s | [|] | | [|] m e]; cbn; congruence.
Qed.

Lemma leb_zero_trans (x1 x2 : float) :
  (x1 <? x2) = true -> (x2 <=? 0) = true -> (x1 <=? 0) = true.
Proof.
  rewrite ltb_spec, !leb_spec, Prim2SF_zero.
  destruct (Prim2SF x1) as [s1 | [|] | | [|] m1 e1];
    destruct (Prim2SF x2) as [s2 | [|] | | [|] m2 e2]; cbn; congruence.
Qed.

(** Signs pass through rounding unchanged. *)

Lemma SFopp_binary_round_aux (s : bool) (m e : Z) (l : location) :
  SFopp (binary_round_aux prec emax s m e l)
  = binary_round_aux prec emax (negb s) m e l.
Proof.
  unfold binary_round_aux.
  destruct (shr_fexp prec emax m e l) as [mrs' e'].
  destruct (shr_fexp prec emax _ e' loc_Exact) as [mrs'' e''].
  destruct (shr_m mrs''); [reflexivity | | reflexivity].
  destruct (e'' <=? emax - prec)%Z; reflexivity.
Qed.

Lemma SFmul_opp_r (x y : spec_float) :
  SF64mul x (SFopp y) = SFopp (SF64mul x y).
Proof.
  unfold SF64mul.
  destruct x as [sx | sx | | sx mx ex]; destruct y as [sy | sy | | sy my ey];
    cbn [SFmul SFopp]; try reflexivity;
    try (destruct sx, sy; reflexivity).
  rewrite SFopp_binary_round_aux. f_equal. destruct sx, sy; reflexivity.
Qed.

Lemma SFmul_opp_opp (x y : spec_float) :
  SF64mul (SFopp x) (SFopp y) = SF64mul x y.
Proof.
  unfold SF64mul.
  destruct x as [sx | sx | | sx mx ex]; destruct y as [sy | sy | | sy my ey];
    cbn [SFmul SFopp]; try reflexivity;
    try (destruct sx, sy; reflexivity).
Qed.

Lemma SFmul_abs_abs (x : spec_float) :
  SF64mul (SFabs x) (SFabs x) = SF64mul x x.
Proof.
  unfold SF64mul.
  destruct x as [sx | sx | | sx mx ex]; cbn [SFmul SFabs]; try reflexivity;
    destruct sx; reflexivity.
Qed.

Lemma mul_opp_r (x y : float) : x * - y = - (x * y).
Proof.
  apply Prim2SF_inj. rewrite opp_spec, !mul_spec, opp_spec. apply SFmul_opp_r.
Qed.

Lemma mul_opp_opp (x y : float) : - x * - y = x * y.
Proof.
  apply Prim2SF_inj. rewrite !mul_spec, !opp_spec. apply SFmul_opp_opp.
Qed.

Lemma mul_abs_abs (x : float) : abs x * abs x = x * x.
Proof.
  apply Prim2SF_inj. rewrite !mul_spec, !abs_spec. apply SFmul_abs_abs.
Qed.

End Binary64.

(** * The library under an arbitrary engine *)

Module MathUtilsFacts.

Import MathUtils.

Section WithEngine.
Context {E : MathEngine}.

(** ** Loops *)

Lemma simpson_loop_fold (fuel : nat) (f : float -> float) (w h n i sum : float) :
  simpson_loop fuel f w h n i sum
  = fold_left (fun s c => s + w * f (c * h)) (loop_counters fuel n i) sum.
Proof.
  revert i sum. induction fuel as [|fuel IH]; intros i sum; cbn [simpson_loop loop_counters].
  - reflexivity.
  - destruct (i <? n); [|reflexivity]. cbn [fold_left]. apply IH.
Qed.

(** Once the loop has left through its condition, more fuel changes
    nothing. *)
Lemma simpson_loop_exits (fuel extra : nat) (f : float -> float)
      (w h n i sum : float) :
  loop_exits fuel n i = true ->
  simpson_loop (fuel + extra) f w h n i sum = simpson_loop fuel f w h n i sum.
Proof.
  revert i sum. induction fuel as [|fuel IH]; intros i sum Hex.
  - cbn [loop_exits] in Hex. destruct (i <? n) eqn:Hi; [discriminate|].
    destruct extra; cbn [Nat.add simpson_loop]; [reflexivity|].
    rewrite Hi. reflexivity.
  - cbn [loop_exits] in Hex. cbn [Nat.add simpson_loop].
    destruct (i <? n); [|reflexivity]. apply IH, Hex.
Qed.

Lemma simpson_loops_leave_by_condition :
  loop_exits 100 100 1 = true /\ loop_exits 100 (100 - 1) 2 = true
  /\ loop_exits 100 200 1 = true /\ loop_exits 100 (200 - 1) 2 = true.
Proof. split; [|split; [|split]]; vm_compute; reflexivity. Qed.

Lemma counters_odd_200 :
  loop_counters 100 200 1 = map float_of_nat (Spec.odd_indices 200).
Proof. vm_compute. reflexivity. Qed.

Lemma counters_even_200 :
  loop_counters 100 (200 - 1) 2 = map float_of_nat (Spec.even_indices 200).
Proof. vm_compute. reflexivity. Qed.

Lemma fold_left_map_counter (g : float -> float -> float) (l : list nat) (s : float) :
  fold_left g (map float_of_nat l) s = fold_left (fun a i => g a (float_of_nat i)) l s.
Proof.
  revert s. induction l as [|i l IH]; intros s; cbn [map fold_left];
    [reflexivity | apply IH].
Qed.

(** ** Symmetry of the densities *)

Lemma tPdf_opp (x v : float) : tPdf (- x) v = tPdf x v.
Proof. unfold tPdf. rewrite Binary64.mul_opp_opp. reflexivity. Qed.

Lemma tPdf_abs (x v : float) : tPdf (abs x) v = tPdf x v.
Proof. unfold tPdf. rewrite Binary64.mul_abs_abs. reflexivity. Qed.

Lemma normPdf_opp (x : float) : normPdf (- x) = normPdf x.
Proof.
  unfold normPdf.
  rewrite (Binary64.mul_opp_r (-0.5) x), Binary64.mul_opp_opp. reflexivity.
Qed.

(** C7: the Student's-t and standard normal densities are even functions of
    [x], for every degrees-of-freedom argument: [pdf(x, df, 't')] equals
    [pdf(-x, df, 't')] and [pdf(x, df, 'normal')] equals
    [pdf(-x, df, 'normal')], bit for bit and whatever the engine. *)
Theorem pdf_symmetric (x df : float) :
  pdf x df (JStr "t") = pdf (- x) df (JStr "t")
  /\ pdf x df (JStr "normal") = pdf (- x) df (JStr "normal").
Proof.
  split.
  - change (tPdf x df = tPdf (- x) df). symmetry. apply tPdf_opp.
  - change (normPdf x = normPdf (- x)). symmetry. apply normPdf_opp.
Qed.

(** ** Student's t cumulative distribution *)

Lemma tCdf_integral (x v : float) :
  (x =? 0) = false ->
  tCdf x v =
  let integral := Spec.simpson_from_zero (fun y => tPdf y v) (abs x) 200 in
  if 0 <? x then 0.5 + integral else 0.5 - integral.
Proof.
  intros Hx. unfold tCdf. rewrite Hx. cbv zeta. unfold Spec.simpson_from_zero.
  change (float_of_nat 200) with 200.
  rewrite !simpson_loop_fold, counters_odd_200, counters_even_200.
  rewrite !fold_left_map_counter, tPdf_abs. reflexivity.
Qed.

(** C5: [tCdf] returns exactly [0.5] at [x == 0]; for [x > 0] it returns
    [0.5] plus, and for [x < 0] [0.5] minus, the Simpson sum of the t density
    over [[0, |x|]] with 200 subintervals, whose first sample is the density
    at the centre [0]. *)
Theorem tCdf_simpson (x v : float) :
  ((x =? 0) = true -> tCdf x v = 0.5)
  /\ ((0 <? x) = true ->
      tCdf x v = 0.5 + Spec.simpson_from_zero (fun y => tPdf y v) (abs x) 200)
  /\ ((x <? 0) = true ->
      tCdf x v = 0.5 - Spec.simpson_from_zero (fun y => tPdf y v) (abs x) 200).
Proof.
  split; [|split].
  - intros Hx. unfold tCdf. rewrite Hx. reflexivity.
  - intros Hx. rewrite tCdf_integral by (apply Binary64.ltb_zero_eqb, Hx).
    cbv zeta. rewrite Hx. reflexivity.
  - intros Hx. destruct (Binary64.ltb_neg_eqb x Hx) as [Hz Hp].
    rewrite tCdf_integral by exact Hz. cbv zeta. rewrite Hp. reflexivity.
Qed.

(** ** gamma *)

Lemma gamma_rec_direct (d : nat) (z : float) :
  (z <? 0.5) = false -> gamma_rec (S d) z = Some (gamma_lanczos z).
Proof. intros Hz. cbn [gamma_rec]. rewrite Hz. reflexivity. Qed.

Lemma gamma_rec_reflect (d : nat) (z : float) :
  (z <? 0.5) = true ->
  gamma_rec (S (S d)) z
  = Some (Math_PI / (Math_sin (Math_PI * z) * gamma_lanczos (1 - z))).
Proof.
  intros Hz. destruct (Binary64.sub_one_ge_half z Hz) as [_ Hnot].
  change (gamma_rec (S (S d)) z)
    with (if z <? 0.5
          then match gamma_rec (S d) (1 - z) with
               | Some g => Some (Math_PI / (Math_sin (Math_PI * z) * g))
               | None => None
               end
          else Some (gamma_lanczos z)).
  rewrite Hz, (gamma_rec_direct d (1 - z) Hnot). reflexivity.
Qed.

(** C8, amended: [gamma] returns for every [z] with at most one nested call.
    When [z < 0.5] it calls itself exactly once, on [1 - z]; in binary64 that
    argument satisfies [1 - z >= 0.5] (not always [> 0.5]), which is all the
    guard [z < 0.5] asks for, so the callee takes the Lanczos branch.  When
    [z < 0.5] fails there is no nested call at all. *)
Theorem gamma_depth_at_most_one (z : float) :
  (forall d : nat, gamma_rec (2 + d) z = Some (gamma z))
  /\ ((z <? 0.5) = true ->
      gamma_rec 1 z = None
      /\ (0.5 <=? 1 - z) = true
      /\ gamma_rec 1 (1 - z) = Some (gamma_lanczos (1 - z))
      /\ gamma z = Math_PI / (Math_sin (Math_PI * z) * gamma_lanczos (1 - z)))
  /\ ((z <? 0.5) = false ->
      gamma_rec 1 z = Some (gamma z) /\ gamma z = gamma_lanczos z).
Proof.
  destruct (z <? 0.5) eqn:Hz.
  - pose proof (gamma_rec_reflect 0 z Hz) as H2.
    destruct (Binary64.sub_one_ge_half z Hz) as [Hge Hnot].
    assert (gamma z = Math_PI / (Math_sin (Math_PI * z) * gamma_lanczos (1 - z)))
      as Hg by (unfold gamma; rewrite H2; reflexivity).
    split; [|split].
    + intros d. rewrite Hg. apply gamma_rec_reflect, Hz.
    + intros _. split; [|split; [|split]].
      * cbn [gamma_rec]. rewrite Hz. reflexivity.
      * exact Hge.
      * apply gamma_rec_direct, Hnot.
      * exact Hg.
    + discriminate.
  - assert (gamma z = gamma_lanczos z) as Hg
      by (unfold gamma; rewrite (gamma_rec_direct 1 z Hz); reflexivity).
    split; [|split].
    + intros d. rewrite Hg. apply gamma_rec_direct, Hz.
    + discriminate.
    + intros _. split; [|exact Hg]. rewrite Hg. apply gamma_rec_direct, Hz.
Qed.

(** ** The facade *)

Lemma tag_not_chi (type : jsval) :
  type <> JStr "chi" -> strict_eq_str type "chi" = false.
Proof.
  intros H. destruct type as [| | b | x | s]; try reflexivity.
  cbn [strict_eq_str]. apply String.eqb_neq. congruence.
Qed.

Lemma tag_not_t (type : jsval) :
  type <> JStr "t" -> strict_eq_str type "t" = false.
Proof.
  intros H. destruct type as [| | b | x | s]; try reflexivity.
  cbn [strict_eq_str]. apply String.eqb_neq. congruence.
Qed.

Lemma cdf_fallback (type : jsval) (x df : float) :
  strict_eq_str type "chi" = false -> strict_eq_str type "t" = false ->
  cdf x df type = normCdf x.
Proof. intros Hc Ht. unfold cdf. rewrite Hc, Ht. reflexivity. Qed.

(** Off the two named families the bisection never reads [df] nor the tag. *)
Lemma bisect_fallback (type1 type2 : jsval) (df1 df2 : float) (iters : nat)
      (targetArea low high mid : float) :
  strict_eq_str type1 "chi" = false -> strict_eq_str type1 "t" = false ->
  strict_eq_str type2 "chi" = false -> strict_eq_str type2 "t" = false ->
  bisect iters targetArea df1 type1 low high mid
  = bisect iters targetArea df2 type2 low high mid.
Proof.
  intros Hc1 Ht1 Hc2 Ht2. revert low high mid.
  induction iters as [|iters IH]; intros low high mid; cbn [bisect].
  - reflexivity.
  - rewrite (cdf_fallback type1), (cdf_fallback type2) by assumption.
    destruct (normCdf ((low + high) / 2) <? targetArea); apply IH.
Qed.

Lemma ppf_fallback (type1 type2 : jsval) (df1 df2 p : float) :
  strict_eq_str type1 "chi" = false -> strict_eq_str type1 "t" = false ->
  strict_eq_str type2 "chi" = false -> strict_eq_str type2 "t" = false ->
  ppf p df1 type1 = ppf p df2 type2.
Proof.
  intros Hc1 Ht1 Hc2 Ht2. unfold ppf. rewrite Hc1, Hc2.
  destruct (p <=? 0); [reflexivity|].
  destruct (1 <=? p); [reflexivity|].
  apply bisect_fallback; assumption.
Qed.

(** C9: the degrees-of-freedom argument has no influence on the normal
    family: for all [x], [p], [df1] and [df2], [pdf], [cdf] and [ppf] with
    the tag ['normal'] return the same number under [df1] and under [df2]. *)
Theorem normal_ignores_df (x p df1 df2 : float) :
  pdf x df1 (JStr "normal") = pdf x df2 (JStr "normal")
  /\ cdf x df1 (JStr "normal") = cdf x df2 (JStr "normal")
  /\ ppf p df1 (JStr "normal") = ppf p df2 (JStr "normal").
Proof.
  split; [reflexivity|]. split; [reflexivity|].
  apply ppf_fallback; reflexivity.
Qed.

(** C10: a family tag other than ['chi'] and ['t'], whatever JavaScript
    value it is, is served as the standard normal: [pdf] and [cdf] return
    [normPdf(x)] and [normCdf(x)], and [ppf] returns what it returns for
    ['normal'].  The three functions are total, so no tag is rejected. *)
Theorem unknown_tag_is_normal (type : jsval) (x p df : float) :
  type <> JStr "chi" -> type <> JStr "t" ->
  pdf x df type = normPdf x
  /\ cdf x df type = normCdf x
  /\ ppf p df type = ppf p df (JStr "normal").
Proof.
  intros Hc Ht. apply tag_not_chi in Hc. apply tag_not_t in Ht.
  split; [|split].
  - unfold pdf. rewrite Hc, Ht. reflexivity.
  - apply cdf_fallback; assumption.
  - apply ppf_fallback; solve [assumption | reflexivity].
Qed.

(** ** The sentinel of [ppf] at [p >= 1] *)

Lemma ppf_upper (p df : float) (type : jsval) :
  (1 <=? p) = true ->
  ppf p df type = if strict_eq_str type "chi" then 100 else 10.
Proof.
  intros Hp. unfold ppf. rewrite (Binary64.leb_one_leb_zero p Hp), Hp. reflexivity.
Qed.

Lemma chi_only_ppf_upper (p k : float) :
  (1 <=? p) = true ->
  ChiSquareUtils.ppf p k = Math_max 100 (k + 6 * sqrt (2 * k)).
Proof.
  intros Hp. unfold ChiSquareUtils.ppf.
  rewrite (Binary64.leb_one_leb_zero p Hp). cbv zeta. rewrite Hp. reflexivity.
Qed.

(** C3: at [p >= 1] the generalised [ppf] returns the constants [100]
    (chi-square) and [10] (normal, t); the chi-square-only copy returns
    [max(100, k + 6*sqrt(2*k))].  The two differ as soon as the latter
    exceeds [100]: at [df = 100] it is about [184.85]. *)
Theorem ppf_upper_sentinel :
  (forall (p df : float) (type : jsval), (1 <=? p) = true ->
     ppf p df type = if strict_eq_str type "chi" then 100 else 10)
  /\ (forall p k : float, (1 <=? p) = true ->
        ChiSquareUtils.ppf p k = Math_max 100 (k + 6 * sqrt (2 * k)))
  /\ ppf 1 100 (JStr "chi") = 100
  /\ Math_max 100 (100 + 6 * sqrt (2 * 100)) = 184.85281374238571
  /\ (ppf 1 100 (JStr "chi") <? Math_max 100 (100 + 6 * sqrt (2 * 100))) = true.
Proof.
  split; [exact ppf_upper|]. split; [exact chi_only_ppf_upper|].
  split; [|split]; vm_compute; reflexivity.
Qed.

End WithEngine.

End MathUtilsFacts.

(** * The library on the reference engine *)

Module ReferenceRun.

Import MathUtils.
#[local] Existing Instance RefEngine.engine.

(** C1, amended: for every family in {chi, t, normal}, [df] in {1, 5, 30}
    and [p] in {0.01, 0.25, 0.5, 0.75, 0.99}, except Student's t with
    [df = 1] and [p] in {0.01, 0.99}, [cdf(ppf(p, df, family), df, family)]
    is within [1e-3] of [p]. *)
Theorem round_trip_sampled (family : jsval) (df p : float) :
  In family Spec.families -> In df Spec.sample_dfs -> In p Spec.sample_ps ->
  ~ Spec.outside_bracket p df family ->
  Spec.round_trip_ok p df family = true.
Proof.
  unfold Spec.families, Spec.sample_dfs, Spec.sample_ps. cbn [In].
  intros Hf Hd Hp Hout. each_sample;
    first [ vm_compute; reflexivity
          | exfalso; apply Hout; unfold Spec.outside_bracket; auto ].
Qed.

Lemma round_trip_sampled_witness :
  Spec.round_trip_ok 0.75 5 (JStr "chi") = true.
Proof.
  apply round_trip_sampled.
  - left. reflexivity.
  - right. left. reflexivity.
  - right. right. right. left. reflexivity.
  - intros [Hfam _]. discriminate Hfam.
Defined.

(** The round trip misses by more than [0.02] for Student's t with one
    degree of freedom at [p = 0.01]: every midpoint of [[-10, 10]] has a
    cumulative probability above [0.01], and [ppf] ends next to [-10]. *)
Lemma round_trip_fails_t1 :
  Spec.round_trip_ok 0.01 1 (JStr "t") = false
  /\ (0.02 <? Spec.round_trip_error 0.01 1 (JStr "t")) = true
  /\ (ppf 0.01 1 (JStr "t") <? -9.99) = true.
Proof. split; [|split]; vm_compute; reflexivity. Qed.

Lemma round_trip_fails_t1_upper :
  Spec.round_trip_ok 0.99 1 (JStr "t") = false.
Proof. vm_compute. reflexivity. Qed.

(** C2, amended: [cdf] applies no clamp.  It is exactly [0] for chi-square
    at [x <= 0] and exactly [0.5] for Student's t at [x == 0], under any
    engine.  For every [df] in {1, 5, 30} it lies in [[0, 1]] at the central
    query points -3, -2, -1, -0.5, 0, 0.5, 1, 1.5 for every family, and for
    Student's t and the normal family at the query points up to ten units
    from the centre. *)
Theorem cdf_unit_interval_sampled :
  (forall (E : MathEngine) (x k : float),
     (x <=? 0) = true -> cdf x k (JStr "chi") = 0)
  /\ (forall (E : MathEngine) (x v : float),
        (x =? 0) = true -> cdf x v (JStr "t") = 0.5)
  /\ (forall (family : jsval) (df x : float),
        In family Spec.families -> In df Spec.sample_dfs ->
        In x Spec.central_xs ->
        Spec.in_unit_interval (cdf x df family) = true)
  /\ (forall (family : jsval) (df x : float),
        In family [JStr "t"; JStr "normal"] -> In df Spec.sample_dfs ->
        In x Spec.wide_xs ->
        Spec.in_unit_interval (cdf x df family) = true).
Proof.
  split; [|split; [|split]].
  - intros E x k Hx. change (chiCdf x k = 0). unfold chiCdf. rewrite Hx. reflexivity.
  - intros E x v Hx. change (tCdf x v = 0.5). unfold tCdf. rewrite Hx. reflexivity.
  - unfold Spec.families, Spec.sample_dfs, Spec.central_xs. cbn [In].
    intros family df x Hf Hd Hx. each_sample; vm_compute; reflexivity.
  - unfold Spec.sample_dfs, Spec.wide_xs. cbn [In].
    intros family df x Hf Hd Hx. each_sample; vm_compute; reflexivity.
Qed.

Lemma cdf_unit_interval_sampled_witness :
  cdf (-1) 30 (JStr "chi") = 0
  /\ cdf 0 5 (JStr "t") = 0.5
  /\ Spec.in_unit_interval (cdf 1.5 1 (JStr "chi")) = true
  /\ Spec.in_unit_interval (cdf 10 1 (JStr "t")) = true.
Proof.
  destruct cdf_unit_interval_sampled as (Hchi & Ht & Hgrid & Hwide).
  split; [|split; [|split]].
  - apply Hchi. reflexivity.
  - apply Ht. reflexivity.
  - apply Hgrid.
    + left. reflexivity.
    + left. reflexivity.
    + do 7 right. left. reflexivity.
  - apply Hwide.
    + left. reflexivity.
    + left. reflexivity.
    + do 16 right. left. reflexivity.
Defined.

(** Chi-square with one degree of freedom is already above [1] at [x = 2],
    and far above at [x = 1000]. *)
Lemma cdf_above_one :
  Spec.in_unit_interval (cdf 2 1 (JStr "chi")) = false
  /\ (1.03 <? cdf 2 1 (JStr "chi")) = true
  /\ (100 <? cdf 1000 1 (JStr "chi")) = true.
Proof. split; [|split]; vm_compute; reflexivity. Qed.

(** C4, amended: [cdf] is non-decreasing along the query points up to ten
    units from the centre: for every family, [df] in {1, 5, 30} and
    [x1 < x2] among -10, -5, -3, -2, -1, -0.5, 0, 0.5, 1, 1.5, 2, 3, 4, 5, 6,
    8, 10, [cdf(x1) <= cdf(x2)]; and, under any engine, for chi-square on
    [x1 < x2 <= 0], where it is constant. *)
Theorem cdf_monotone_sampled :
  (forall (E : MathEngine) (x1 x2 k : float),
     (x1 <? x2) = true -> (x2 <=? 0) = true ->
     (cdf x1 k (JStr "chi") <=? cdf x2 k (JStr "chi")) = true)
  /\ (forall (family : jsval) (df x1 x2 : float),
        In family Spec.families -> In df Spec.sample_dfs ->
        In x1 Spec.wide_xs -> In x2 Spec.wide_xs ->
        (x1 <? x2) = true ->
        (cdf x1 df family <=? cdf x2 df family) = true).
Proof.
  split.
  - intros E x1 x2 k Hlt Hx2.
    pose proof (Binary64.leb_zero_trans x1 x2 Hlt Hx2) as Hx1.
    change ((chiCdf x1 k <=? chiCdf x2 k) = true).
    unfold chiCdf. rewrite Hx1, Hx2. reflexivity.
  - unfold Spec.families, Spec.sample_dfs, Spec.wide_xs. cbn [In].
    intros family df x1 x2 Hf Hd Hx1 Hx2 Hlt. each_sample;
      first [ vm_compute; reflexivity | vm_compute in Hlt; discriminate Hlt ].
Qed.

Lemma cdf_monotone_sampled_witness :
  (cdf (-2) 5 (JStr "chi") <=? cdf (-1) 5 (JStr "chi")) = true
  /\ (cdf 0.5 30 (JStr "t") <=? cdf 8 30 (JStr "t")) = true.
Proof.
  destruct cdf_monotone_sampled as (Hchi & Hgrid).
  split.
  - apply Hchi; reflexivity.
  - apply Hgrid.
    + right. left. reflexivity.
    + do 2 right. left. reflexivity.
    + do 7 right. left. reflexivity.
    + do 15 right. left. reflexivity.
    + reflexivity.
Defined.

(** Chi-square with five degrees of freedom: the value at [x = 1000] is
    below the value at [x = 10]. *)
Lemma cdf_not_monotone :
  (10 <? 1000) = true
  /\ (cdf 1000 5 (JStr "chi") <? cdf 10 5 (JStr "chi")) = true
  /\ (0.9 <? cdf 10 5 (JStr "chi")) = true
  /\ (cdf 1000 5 (JStr "chi") <? 0.4) = true.
Proof. split; [|split; [|split]]; vm_compute; reflexivity. Qed.

(** C6, amended: [chiPdf(x, k)] is exactly [0] whenever [x <= 0] or [k <= 0],
    under any engine; and [pdf(x, df, family) >= 0] for every family, [df] in
    {1, 5, 30} and [x] among the density query points. *)
Theorem pdf_nonnegative_sampled :
  (forall (E : MathEngine) (x k : float),
     (x <=? 0) = true \/ (k <=? 0) = true -> pdf x k (JStr "chi") = 0)
  /\ (forall (family : jsval) (df x : float),
        In family Spec.families -> In df Spec.sample_dfs ->
        In x Spec.density_xs ->
        (0 <=? pdf x df family) = true).
Proof.
  split.
  - intros E x k Hxk. change (chiPdf x k = 0). unfold chiPdf.
    destruct Hxk as [-> | ->]; [reflexivity|].
    rewrite orb_true_r. reflexivity.
  - unfold Spec.families, Spec.sample_dfs, Spec.density_xs. cbn [In].
    intros family df x Hf Hd Hx. each_sample; vm_compute; reflexivity.
Qed.

Lemma pdf_nonnegative_sampled_witness :
  pdf 3 (-2) (JStr "chi") = 0
  /\ (0 <=? pdf 2 5 (JStr "t")) = true.
Proof.
  destruct pdf_nonnegative_sampled as (Hzero & Hgrid).
  split.
  - apply Hzero. right. reflexivity.
  - apply Hgrid.
    + right. left. reflexivity.
    + right. left. reflexivity.
    + do 10 right. left. reflexivity.
Defined.

(** At [df = 400] and [x = 400] the numerator and the denominator of
    [chiPdf] both overflow, and the quotient is NaN. *)
Lemma pdf_nan_large_df :
  (0 <? 400) = true
  /\ is_nan (pdf 400 400 (JStr "chi")) = true
  /\ (0 <=? pdf 400 400 (JStr "chi")) = false.
Proof. split; [|split]; vm_compute; reflexivity. Qed.

(** The reflected argument [1 - z] is exactly [0.5], not above it, for the
    largest [z] below one half. *)
Lemma reflection_reaches_half :
  (below_half <? 0.5) = true
  /\ 1 - below_half = 0.5
  /\ (0.5 <? 1 - below_half) = false
  /\ gamma_rec 2 below_half
     = Some (Math_PI / (Math_sin (Math_PI * below_half) * gamma_lanczos 0.5)).
Proof. split; [|split; [|split]]; vm_compute; reflexivity. Qed.

(** ** Instances of the engine-independent theorems *)

Lemma tCdf_simpson_witness :
  tCdf 0 5 = 0.5
  /\ tCdf 2 5 = 0.5 + Spec.simpson_from_zero (fun y => tPdf y 5) (abs 2) 200
  /\ tCdf (-2) 5
     = 0.5 - Spec.simpson_from_zero (fun y => tPdf y 5) (abs (-2)) 200.
Proof.
  split; [|split].
  - apply (proj1 (MathUtilsFacts.tCdf_simpson 0 5)). reflexivity.
  - apply (proj1 (proj2 (MathUtilsFacts.tCdf_simpson 2 5))). reflexivity.
  - apply (proj2 (proj2 (MathUtilsFacts.tCdf_simpson (-2) 5))). reflexivity.
Defined.

Lemma gamma_depth_at_most_one_witness :
  (gamma_rec 1 0.25 = None
   /\ (0.5 <=? 1 - 0.25) = true
   /\ gamma_rec 1 (1 - 0.25) = Some (gamma_lanczos (1 - 0.25))
   /\ gamma 0.25
      = Math_PI / (Math_sin (Math_PI * 0.25) * gamma_lanczos (1 - 0.25)))
  /\ (gamma_rec 1 5 = Some (gamma 5) /\ gamma 5 = gamma_lanczos 5).
Proof.
  split.
  - apply (proj1 (proj2 (MathUtilsFacts.gamma_depth_at_most_one 0.25))).
    reflexivity.
  - apply (proj2 (proj2 (MathUtilsFacts.gamma_depth_at_most_one 5))).
    reflexivity.
Defined.

Lemma unknown_tag_is_normal_witness :
  (pdf 1 5 (JStr "gaussian") = normPdf 1
   /\ cdf 1 5 (JStr "gaussian") = normCdf 1
   /\ ppf 0.9 5 (JStr "gaussian") = ppf 0.9 5 (JStr "normal"))
  /\ (pdf 1 5 JUndefined = normPdf 1
      /\ cdf 1 5 JUndefined = normCdf 1
      /\ ppf 0.9 5 JUndefined = ppf 0.9 5 (JStr "normal")).
Proof.
  split.
  - apply MathUtilsFacts.unknown_tag_is_normal; discriminate.
  - apply MathUtilsFacts.unknown_tag_is_normal; discriminate.
Defined.

(** ** The reference engine against correctly rounded values *)

Example reference_engine_accuracy :
  Spec.close_to (RefEngine.exp 1) 2.718281828459045 1e-15 = true
  /\ Spec.close_to (RefEngine.exp (-7.5)) 5.5308437014783363e-4 1e-18 = true
  /\ Spec.close_to (RefEngine.pow 2 0.5) 1.4142135623730951 1e-15 = true
  /\ Spec.close_to (RefEngine.pow 7.5 1.5) 20.539595906443729 1e-14 = true
  /\ Spec.close_to (RefEngine.sin 1) 0.8414709848078965 1e-15 = true
  /\ RefEngine.pow 2 10 = 1024
  /\ RefEngine.pow 400 199 = infinity
  /\ RefEngine.exp (-800) = 0.
Proof. repeat (split; [vm_compute; reflexivity|]). vm_compute. reflexivity. Qed.

(** ** The concrete scenarios of the specification *)

Example gamma_sanity :
  Spec.close_to (gamma 5) 24 1e-6 = true
  /\ Spec.close_to (gamma 0.5) (sqrt Math_PI) 1e-6 = true.
Proof. split; vm_compute; reflexivity. Qed.

Example chi_square_24 :
  Spec.close_to (cdf 36.415 24 (JStr "chi")) 0.95 0.01 = true
  /\ (0 <? pdf 24 24 (JStr "chi")) = true.
Proof. split; vm_compute; reflexivity. Qed.

Example normal_scenarios :
  Spec.close_to (cdf 1.96 0 (JStr "normal")) 0.975 1e-3 = true
  /\ Spec.close_to (ppf 0.975 0 (JStr "normal")) 1.96 0.01 = true.
Proof. split; vm_compute; reflexivity. Qed.

Example student_t_10 :
  Spec.close_to (ppf 0.975 10 (JStr "t")) 2.228 0.02 = true.
Proof. vm_compute. reflexivity. Qed.

End ReferenceRun.

(** * Order and sign facts about binary64 *)

Module Binary64Order.

Lemma SFcompare_antisym (x y : spec_float) :
  SFcompare y x = option_map CompOpp (SFcompare x y).
Proof.
  destruct x as [sx | sx | | sx mx ex]; destruct y as [sy | sy | | sy my ey];
    try reflexivity; try (destruct sx; reflexivity);
    try (destruct sy; reflexivity); try (destruct sx, sy; reflexivity).
  unfold SFcompare.
  change (Pos.compare_cont Eq my mx) with (Pos.compare my mx).
  change (Pos.compare_cont Eq mx my) with (Pos.compare mx my).
  rewrite (Z.compare_antisym ex ey), (Pos.compare_antisym mx my).
  destruct sx, sy; cbn [option_map]; try reflexivity;
    destruct (ex ?= ey)%Z; cbn [CompOpp]; reflexivity.
Qed.

Lemma SFcompare_refl (x : spec_float) :
  x <> S754_nan -> SFcompare x x = Some Eq.
Proof.
  destruct x as [s | s | | s m e]; intros Hx; try congruence.
  - reflexivity.
  - destruct s; reflexivity.
  - unfold SFcompare.
    change (Pos.compare_cont Eq m m) with (Pos.compare m m).
    rewrite Z.compare_refl, Pos.compare_refl. destruct s; reflexivity.
Qed.

Lemma SFcompare_some (x y : spec_float) :
  x <> S754_nan -> y <> S754_nan -> exists c, SFcompare x y = Some c.
Proof.
  destruct x as [sx | sx | | sx mx ex]; destruct y as [sy | sy | | sy my ey];
    intros Hx Hy; try congruence; eexists; reflexivity.
Qed.

Local Open Scope float_scope.

Lemma Prim2SF_nan : Prim2SF nan = S754_nan.
Proof. vm_compute. reflexivity. Qed.

Lemma is_nan_false (x : float) : is_nan x = false <-> Prim2SF x <> S754_nan.
Proof.
  unfold is_nan. rewrite eqb_spec. unfold SFeqb. split.
  - intros H Hn. rewrite Hn in H. discriminate H.
  - intros H. rewrite (SFcompare_refl _ H). reflexivity.
Qed.

Lemma is_nan_true (x : float) : is_nan x = true -> x = nan.
Proof.
  intros H. apply Prim2SF_inj. rewrite Prim2SF_nan.
  destruct (Prim2SF x) eqn:Hx; try reflexivity;
    exfalso; assert (is_nan x = false) as Hf
      by (apply is_nan_false; rewrite Hx; discriminate);
    rewrite Hf in H; discriminate H.
Qed.

Lemma ltb_nan_r (v : float) : (v <? nan) = false.
Proof.
  rewrite ltb_spec, Prim2SF_nan. destruct (Prim2SF v) as [s | s | | s m e]; reflexivity.
Qed.

Lemma leb_nan_l (v : float) : (nan <=? v) = false.
Proof. rewrite leb_spec, Prim2SF_nan. reflexivity. Qed.

Lemma leb_nan_r (v : float) : (v <=? nan) = false.
Proof.
  rewrite leb_spec, Prim2SF_nan. destruct (Prim2SF v) as [s | s | | s m e]; reflexivity.
Qed.

Lemma ltb_leb (a b : float) : (a <? b) = true -> (a <=? b) = true.
Proof.
  rewrite ltb_spec, leb_spec. unfold SFltb, SFleb.
  destruct (SFcompare (Prim2SF a) (Prim2SF b)) as [[| |]|]; congruence.
Qed.

Lemma leb_refl (a : float) : is_nan a = false -> (a <=? a) = true.
Proof.
  intros Ha. apply is_nan_false in Ha. rewrite leb_spec. unfold SFleb.
  rewrite (SFcompare_refl _ Ha). reflexivity.
Qed.

(** Two numbers are comparable: when [a < b] fails, [b <= a] holds. *)
Lemma not_ltb_leb (a b : float) :
  is_nan a = false -> is_nan b = false -> (a <? b) = false -> (b <=? a) = true.
Proof.
  intros Ha Hb. apply is_nan_false in Ha. apply is_nan_false in Hb.
  rewrite ltb_spec, leb_spec. unfold SFltb, SFleb.
  rewrite (SFcompare_antisym (Prim2SF a) (Prim2SF b)).
  destruct (SFcompare_some _ _ Ha Hb) as (c & ->).
  destruct c; cbn; congruence.
Qed.

Lemma not_leb_ltb (a b : float) :
  is_nan a = false -> is_nan b = false -> (a <=? b) = false -> (b <? a) = true.
Proof.
  intros Ha Hb. apply is_nan_false in Ha. apply is_nan_false in Hb.
  rewrite ltb_spec, leb_spec. unfold SFltb, SFleb.
  rewrite (SFcompare_antisym (Prim2SF a) (Prim2SF b)).
  destruct (SFcompare_some _ _ Ha Hb) as (c & ->).
  destruct c; cbn; congruence.
Qed.

(** ** [Math.max] and [Math.min] *)

Lemma Math_max_nan (a b : float) :
  is_nan a || is_nan b = true -> Math_max a b = nan.
Proof. intros H. unfold Math_max. rewrite H. reflexivity. Qed.

Lemma Math_min_nan (a b : float) :
  is_nan a || is_nan b = true -> Math_min a b = nan.
Proof. intros H. unfold Math_min. rewrite H. reflexivity. Qed.

Lemma Math_max_bounds (a b : float) :
  is_nan a = false -> is_nan b = false ->
  (Math_max a b = a \/ Math_max a b = b)
  /\ (a <=? Math_max a b) = true /\ (b <=? Math_max a b) = true.
Proof.
  intros Ha Hb. unfold Math_max. rewrite Ha, Hb. cbn [orb].
  destruct (a <? b) eqn:Hab.
  - split; [right; reflexivity|]. split; [apply ltb_leb, Hab | apply leb_refl, Hb].
  - destruct (b <? a) eqn:Hba.
    + split; [left; reflexivity|]. split; [apply leb_refl, Ha | apply ltb_leb, Hba].
    + pose proof (not_ltb_leb a b Ha Hb Hab) as Hle1.
      pose proof (not_ltb_leb b a Hb Ha Hba) as Hle2.
      destruct (get_sign a).
      * split; [right; reflexivity|]. split; [exact Hle2 | apply leb_refl, Hb].
      * split; [left; reflexivity|]. split; [apply leb_refl, Ha | exact Hle1].
Qed.

Lemma Math_min_bounds (a b : float) :
  is_nan a = false -> is_nan b = false ->
  (Math_min a b = a \/ Math_min a b = b)
  /\ (Math_min a b <=? a) = true /\ (Math_min a b <=? b) = true.
Proof.
  intros Ha Hb. unfold Math_min. rewrite Ha, Hb. cbn [orb].
  destruct (a <? b) eqn:Hab.
  - split; [left; reflexivity|]. split; [apply leb_refl, Ha | apply ltb_leb, Hab].
  - destruct (b <? a) eqn:Hba.
    + split; [right; reflexivity|]. split; [apply ltb_leb, Hba | apply leb_refl, Hb].
    + pose proof (not_ltb_leb a b Ha Hb Hab) as Hle1.
      pose proof (not_ltb_leb b a Hb Ha Hba) as Hle2.
      destruct (get_sign a).
      * split; [left; reflexivity|]. split; [apply leb_refl, Ha | exact Hle2].
      * split; [right; reflexivity|]. split; [exact Hle1 | apply leb_refl, Hb].
Qed.

(** The clamp [Math.max(0, Math.min(1, v))]. *)
Lemma clamp_unit (v : float) :
  is_nan v = false ->
  (0 <=? Math_max 0 (Math_min 1.0 v)) = true
  /\ (Math_max 0 (Math_min 1.0 v) <=? 1) = true.
Proof.
  intros Hv.
  assert (is_nan 1.0 = false) as H1 by reflexivity.
  assert (is_nan 0 = false) as H0 by reflexivity.
  destruct (Math_min_bounds 1.0 v H1 Hv) as (Hcase & Hle1 & _).
  assert (is_nan (Math_min 1.0 v) = false) as Hm
    by (destruct Hcase as [-> | ->]; assumption).
  destruct (Math_max_bounds 0 (Math_min 1.0 v) H0 Hm) as (Hcase' & Hge0 & _).
  split; [exact Hge0|].
  destruct Hcase' as [-> | ->]; [reflexivity | exact Hle1].
Qed.

Lemma clamp_nan (v : float) :
  is_nan v = true -> Math_max 0 (Math_min 1.0 v) = nan.
Proof.
  intros Hv. rewrite (Math_min_nan 1.0 v) by (rewrite Hv; apply orb_true_r).
  reflexivity.
Qed.

(** ** Negation and absolute value *)

Lemma abs_opp (x : float) : abs (- x) = abs x.
Proof.
  apply Prim2SF_inj. rewrite !abs_spec, opp_spec.
  destruct (Prim2SF x) as [s | s | | s m e]; reflexivity.
Qed.

Lemma mul_opp_l (x y : float) : - x * y = - (x * y).
Proof.
  apply Prim2SF_inj. rewrite opp_spec, !mul_spec, opp_spec.
  unfold SF64mul.
  destruct (Prim2SF x) as [sx | sx | | sx mx ex];
    destruct (Prim2SF y) as [sy | sy | | sy my ey];
    cbn [SFmul SFopp]; try reflexivity; try (destruct sx, sy; reflexivity).
  rewrite Binary64.SFopp_binary_round_aux. f_equal. destruct sx, sy; reflexivity.
Qed.

Lemma opp_involutive (x : float) : - - x = x.
Proof.
  apply Prim2SF_inj. rewrite !opp_spec.
  destruct (Prim2SF x) as [s | s | | s m e]; cbn [SFopp];
    try rewrite negb_involutive; reflexivity.
Qed.

Lemma opp_is_nan (x : float) : is_nan (- x) = is_nan x.
Proof.
  unfold is_nan. rewrite !eqb_spec, opp_spec. unfold SFeqb.
  destruct (Prim2SF x) as [s | s | | s m e]; try reflexivity.
  - destruct s; reflexivity.
  - rewrite !SFcompare_refl by discriminate. reflexivity.
Qed.

Lemma opp_eqb_zero (x : float) : (- x =? 0) = (x =? 0).
Proof.
  rewrite !eqb_spec, opp_spec, Binary64.Prim2SF_zero.
  destruct (Prim2SF x) as [s | s | | s m e]; try reflexivity; destruct s; reflexivity.
Qed.

Lemma truthy_opp (x : float) : truthy (- x) = truthy x.
Proof. unfold truthy. rewrite opp_is_nan, opp_eqb_zero. reflexivity. Qed.

Lemma pos_leb_zero (x : float) :
  (0 <? x) = true -> (0 <=? x) = true /\ (0 <=? - x) = false.
Proof.
  rewrite ltb_spec, !leb_spec, opp_spec, Binary64.Prim2SF_zero.
  destruct (Prim2SF x) as [s | [|] | | [|] m e]; cbn; split; congruence.
Qed.

Lemma neg_leb_zero (x : float) :
  (x <? 0) = true -> (0 <=? x) = false /\ (0 <=? - x) = true.
Proof.
  rewrite ltb_spec, !leb_spec, opp_spec, Binary64.Prim2SF_zero.
  destruct (Prim2SF x) as [s | [|] | | [|] m e]; cbn; split; congruence.
Qed.

(** ** NaN is absorbing *)

Lemma mul_nan_l (y : float) : nan * y = nan.
Proof.
  apply Prim2SF_inj. rewrite mul_spec, Prim2SF_nan. reflexivity.
Qed.

Lemma mul_nan_r (y : float) : y * nan = nan.
Proof.
  apply Prim2SF_inj. rewrite mul_spec, Prim2SF_nan.
  destruct (Prim2SF y); reflexivity.
Qed.

Lemma div_nan_l (y : float) : nan / y = nan.
Proof.
  apply Prim2SF_inj. rewrite div_spec, Prim2SF_nan. reflexivity.
Qed.

Lemma add_nan_r (y : float) : y + nan = nan.
Proof.
  apply Prim2SF_inj. rewrite add_spec, Prim2SF_nan.
  destruct (Prim2SF y); reflexivity.
Qed.

Lemma sub_nan_r (y : float) : y - nan = nan.
Proof.
  apply Prim2SF_inj. rewrite sub_spec, Prim2SF_nan.
  destruct (Prim2SF y); reflexivity.
Qed.

(** ** Rounding never produces NaN and never changes the sign *)

Local Open Scope Z_scope.















Local Open Scope float_scope.



End Binary64Order.

(** * The rest of the library and the screens, under an arbitrary engine *)

Module AppFacts.

Import MathUtils.

Section WithEngine.
Context {E : MathEngine}.

(** ** erf *)

(** X1: [erf] is odd away from zero: [erf(-x)] is [-erf(x)], bit for bit,
    for every [x > 0] and every [x < 0].  At zero it is not: [-0 >= 0]
    holds, so [erf(-0)] and [erf(+0)] are the same number. *)
Theorem erf_odd_away_from_zero (x : float) :
  ((0 <? x) = true \/ (x <? 0) = true -> erf (- x) = - erf x)
  /\ erf neg_zero = erf 0.
Proof.
  split; [|reflexivity].
  intros [Hx | Hx]; unfold erf; rewrite Binary64Order.abs_opp.
  - destruct (Binary64Order.pos_leb_zero x Hx) as [-> ->].
    change (-1)%float with (- (1))%float.
    rewrite (Binary64Order.mul_opp_l 1). reflexivity.
  - destruct (Binary64Order.neg_leb_zero x Hx) as [-> ->].
    change (-1)%float with (- (1))%float.
    rewrite (Binary64Order.mul_opp_l 1), Binary64Order.opp_involutive. reflexivity.
Qed.

(** ** [ppf] on a NaN target *)

Lemma bisect_nan (iters : nat) (df : float) (type : jsval) (low high mid : float) :
  bisect iters nan df type low high mid = halve_high iters low high mid.
Proof.
  revert low high mid. induction iters as [|iters IH]; intros low high mid.
  - reflexivity.
  - cbn [bisect halve_high]. rewrite Binary64Order.ltb_nan_r. apply IH.
Qed.

(** X2: a NaN target probability is not propagated.  It passes both
    sentinel guards, no comparison [val < targetArea] succeeds, and [ppf]
    returns the point fifty halvings above the lower end of the bracket:
    [-9.999999999999982] for the normal and t families, whatever [df]. *)
Theorem ppf_nan_target (df : float) (type : jsval) :
  ppf nan df type
  = if strict_eq_str type "chi"
    then halve_high 50 0 (Math_max 100 (df + 10)) 0
    else -9.9999999999999822.
Proof.
  unfold ppf.
  rewrite Binary64Order.leb_nan_l, Binary64Order.leb_nan_r, bisect_nan.
  destruct (strict_eq_str type "chi"); [reflexivity|].
  vm_compute. reflexivity.
Qed.

(** ** The two copies of [ppf] *)

Lemma bisect_chi_copies (iters : nat) (p k low high mid : float) :
  bisect iters p k (JStr "chi") low high mid
  = ChiSquareUtils.bisect iters p k low high mid.
Proof.
  revert low high mid. induction iters as [|iters IH]; intros low high mid.
  - reflexivity.
  - cbn [bisect ChiSquareUtils.bisect].
    change (cdf ((low + high) / 2) k (JStr "chi"))
      with (ChiSquareUtils.cdf ((low + high) / 2) k).
    destruct (ChiSquareUtils.cdf ((low + high) / 2) k <? p); apply IH.
Qed.

(** X10: where both upper brackets are [100], the generalised [ppf] for
    chi-square and the chi-square-only [ppf] return the same number for
    every target probability. *)
Theorem ppf_copies_agree (p k : float) :
  Math_max 100 (k + 10) = 100 ->
  Math_max 100 (k + 6 * sqrt (2 * k)) = 100 ->
  ppf p k (JStr "chi") = ChiSquareUtils.ppf p k.
Proof.
  intros H1 H2. unfold ppf, ChiSquareUtils.ppf.
  change (strict_eq_str (JStr "chi") "chi") with true. cbv zeta.
  rewrite H1, H2.
  destruct (p <=? 0); [reflexivity|].
  destruct (1 <=? p); [reflexivity|].
  apply bisect_chi_copies.
Qed.

(** ** Degrees of freedom *)



(** ** The test statistic *)

(** X4: with standard deviations as input the chi-square statistic reads
    its inputs through their squares only: entering [-s] for [s], or
    [-sigma] for [sigma], stores the same number, on the chi-square screens
    and on the generalised one. *)
Theorem chi_statistic_ignores_signs (n s sigma old : float) :
  ChiSquareApp.next_testStat (JStr "sd") n (- s) sigma old
  = ChiSquareApp.next_testStat (JStr "sd") n s sigma old
  /\ ChiSquareApp.next_testStat (JStr "sd") n s (- sigma) old
     = ChiSquareApp.next_testStat (JStr "sd") n s sigma old
  /\ (forall extra : float,
        HypothesisApp.next_testStat (JStr "chi") (JStr "sd") n (- s) sigma extra old
        = HypothesisApp.next_testStat (JStr "chi") (JStr "sd") n s sigma extra old)
  /\ (forall extra : float,
        HypothesisApp.next_testStat (JStr "chi") (JStr "sd") n s (- sigma) extra old
        = HypothesisApp.next_testStat (JStr "chi") (JStr "sd") n s sigma extra old).
Proof.
  unfold ChiSquareApp.next_testStat, HypothesisApp.next_testStat.
  change (strict_eq_str (JStr "sd") "sd") with true.
  change (strict_eq_str (JStr "chi") "chi") with true.
  change (js_truthy (JStr "chi")) with true.
  cbv zeta. cbn [negb andb].
  rewrite !Binary64Order.truthy_opp, !Binary64Order.opp_eqb_zero,
    !Binary64.mul_opp_opp.
  split; [reflexivity|]. split; [reflexivity|]. split; reflexivity.
Qed.



(** X6: a sample size that is NaN or zero: the chi-square screens keep the
    statistic they had, the generalised screen stores [0], in every mode. *)
Theorem statistic_on_missing_sample_size
        (mode inputMode : jsval) (n s sigma extra old : float) :
  truthy n = false ->
  ChiSquareApp.next_testStat inputMode n s sigma old = old
  /\ (js_truthy mode = true ->
      HypothesisApp.next_testStat mode inputMode n s sigma extra old = 0).
Proof.
  intros Hn. split.
  - unfold ChiSquareApp.next_testStat. rewrite Hn. reflexivity.
  - intros Hm. unfold HypothesisApp.next_testStat. rewrite Hm, Hn.
    cbn [negb]. rewrite !andb_false_r. cbn [andb]. reflexivity.
Qed.

(** ** The p-value *)

(** X7: the p-value the generalised screen stores is [null] exactly when
    neither critical value is set; otherwise it is a number in [[0, 1]] or
    NaN, whatever [cdf] returned. *)
Theorem p_value_clamped (type : jsval) (cvLeft cvRight : string)
        (testStat df : float) :
  (HypothesisApp.next_pValue type cvLeft cvRight testStat df = None
   <-> is_set cvLeft = false /\ is_set cvRight = false)
  /\ (forall v : float,
        HypothesisApp.next_pValue type cvLeft cvRight testStat df = Some v ->
        is_nan v = true \/ ((0 <=? v) = true /\ (v <=? 1) = true)).
Proof.
  unfold HypothesisApp.next_pValue. cbv zeta.
  assert (forall w v : float, Some (Math_max 0 (Math_min 1.0 w)) = Some v ->
            is_nan v = true \/ ((0 <=? v) = true /\ (v <=? 1) = true)) as Hclamp.
  { intros w v Hv. injection Hv as <-. destruct (is_nan w) eqn:Hw.
    - left. rewrite (Binary64Order.clamp_nan w Hw). reflexivity.
    - right. apply Binary64Order.clamp_unit, Hw. }
  destruct (is_set cvLeft), (is_set cvRight); cbn [andb];
    (split; [split; [intros H; try discriminate H; split; reflexivity
                    | intros [H1 H2]; try discriminate H1; try discriminate H2;
                      reflexivity]
            | intros v Hv; try discriminate Hv; eapply Hclamp; eassumption]).
Qed.

(** Only the two-tailed p-value of the chi-square screen is capped. *)
Lemma two_tailed_capped (cvLeft cvRight : string) (testStat df v : float) :
  is_set cvLeft = true -> is_set cvRight = true ->
  ChiSquareApp.next_pValue cvLeft cvRight testStat df = Some v ->
  is_nan v = true \/ (v <=? 1) = true.
Proof.
  intros Hl Hr. unfold ChiSquareApp.next_pValue. cbv zeta. rewrite Hl, Hr.
  cbn [andb]. intros Hv. injection Hv as <-.
  set (w := 2 * Math_min _ _).
  destruct (is_nan w) eqn:Hw.
  - left. rewrite (Binary64Order.Math_min_nan 1.0 w)
      by (rewrite Hw; apply orb_true_r). reflexivity.
  - right. destruct (Binary64Order.Math_min_bounds 1.0 w eq_refl Hw) as (_ & H & _).
    exact H.
Qed.

(** ** NaN through [cdf] and the p-value *)

Lemma erf_nan : erf nan = nan.
Proof.
  unfold erf. change (abs nan) with nan. cbv zeta.
  generalize (Math_exp (- nan * nan)). intros e.
  match goal with |- ?s * (1 - ?c * e) = nan => change c with nan; change s with (-1)%float end.
  rewrite Binary64Order.mul_nan_l, Binary64Order.sub_nan_r.
  apply Binary64Order.mul_nan_r.
Qed.

(** X11: [cdf] propagates NaN: for a NaN query point it returns NaN, for
    every family tag, every [df] and every engine. *)
Theorem cdf_nan (df : float) (type : jsval) : cdf nan df type = nan.
Proof.
  unfold cdf. destruct (strict_eq_str type "chi"); [|destruct (strict_eq_str type "t")].
  - unfold chiCdf. change (nan <=? 0) with false. cbv zeta.
    change (nan / 100 / 3) with nan. apply Binary64Order.mul_nan_l.
  - unfold tCdf. change (nan =? 0) with false. change (0 <? nan) with false.
    cbv zeta. change (abs nan / 200 / 3) with nan.
    rewrite Binary64Order.mul_nan_l. apply Binary64Order.sub_nan_r.
  - unfold normCdf. change (nan / sqrt 2) with nan.
    rewrite erf_nan, Binary64Order.add_nan_r. apply Binary64Order.mul_nan_r.
Qed.

Lemma cdf_chi_only_nan (df : float) : ChiSquareUtils.cdf nan df = nan.
Proof. exact (cdf_nan df (JStr "chi")). Qed.

(** X12: a NaN test statistic gives a NaN p-value: whenever a critical
    value is set, both screens store NaN, the clamp of the generalised
    screen notwithstanding. *)
Theorem p_value_of_nan_statistic (type : jsval) (cvLeft cvRight : string)
        (df : float) :
  is_set cvLeft || is_set cvRight = true ->
  HypothesisApp.next_pValue type cvLeft cvRight nan df = Some nan
  /\ ChiSquareApp.next_pValue cvLeft cvRight nan df = Some nan.
Proof.
  intros Hset.
  unfold HypothesisApp.next_pValue, ChiSquareApp.next_pValue. cbv zeta.
  rewrite cdf_nan, cdf_chi_only_nan.
  destruct (is_set cvLeft), (is_set cvRight); try discriminate Hset;
    split; reflexivity.
Qed.

(** ** Shading *)

(** X9: [shadeArea] draws only inside the visible range: for arguments
    that are numbers, when it does not return early the range it shades
    runs from [s] to [e] with [xMin <= s], [startX <= s], [s < e],
    [e <= xMax] and [e <= endX]. *)
Theorem shade_range_visible (xMin xMax startX endX s e : float) :
  is_nan xMin = false -> is_nan xMax = false ->
  is_nan startX = false -> is_nan endX = false ->
  HypothesisApp.shade_range xMin xMax startX endX = Some (s, e) ->
  (xMin <=? s) = true /\ (startX <=? s) = true /\ (s <? e) = true
  /\ (e <=? xMax) = true /\ (e <=? endX) = true.
Proof.
  intros Hxmin Hxmax Hstart Hend. unfold HypothesisApp.shade_range. cbv zeta.
  destruct (Binary64Order.Math_max_bounds xMin startX Hxmin Hstart)
    as (Hs & Hs1 & Hs2).
  destruct (Binary64Order.Math_min_bounds xMax endX Hxmax Hend)
    as (He & He1 & He2).
  destruct (Math_min xMax endX <=? Math_max xMin startX) eqn:Hcmp;
    [discriminate|].
  intros H. injection H as <- <-.
  assert (is_nan (Math_max xMin startX) = false) as Hsn
    by (destruct Hs as [-> | ->]; assumption).
  assert (is_nan (Math_min xMax endX) = false) as Hen
    by (destruct He as [-> | ->]; assumption).
  repeat (split; [assumption|]). split; [|split; assumption].
  apply Binary64Order.not_leb_ltb; assumption.
Qed.

End WithEngine.

End AppFacts.

(** * The screens on the reference engine *)

Module ReferenceRunApp.

Import MathUtils.
#[local] Existing Instance RefEngine.engine.

Lemma erf_odd_away_from_zero_witness :
  erf (- (1.5)) = - erf 1.5 /\ erf (- (-2)) = - erf (-2).
Proof.
  split.
  - apply (proj1 (AppFacts.erf_odd_away_from_zero 1.5)). left. reflexivity.
  - apply (proj1 (AppFacts.erf_odd_away_from_zero (-2))). right. reflexivity.
Defined.



Lemma statistic_on_missing_sample_size_witness :
  ChiSquareApp.next_testStat (JStr "sd") nan 2 2 47.04 = 47.04
  /\ (js_truthy (JStr "z_prop") = true ->
      HypothesisApp.next_testStat (JStr "z_prop") (JStr "sd") nan 2 2 1 47.04 = 0).
Proof.
  apply AppFacts.statistic_on_missing_sample_size. reflexivity.
Defined.

Lemma p_value_clamped_witness :
  is_nan 1 = true \/ ((0 <=? 1) = true /\ (1 <=? 1) = true).
Proof.
  apply (proj2 (AppFacts.p_value_clamped (JStr "chi") "3"%string ""%string 2 1) 1).
  vm_compute. reflexivity.
Defined.

Lemma shade_range_visible_witness :
  (-5 <=? -5) = true /\ (-6 <=? -5) = true /\ (-5 <? -1.96) = true
  /\ (-1.96 <=? 5) = true /\ (-1.96 <=? -1.96) = true.
Proof.
  apply (AppFacts.shade_range_visible (-5) 5 (-6) (-1.96) (-5) (-1.96));
    reflexivity.
Defined.

Lemma ppf_copies_agree_witness :
  ppf 0.95 30 (JStr "chi") = ChiSquareUtils.ppf 0.95 30.
Proof.
  apply AppFacts.ppf_copies_agree; reflexivity.
Defined.

Lemma p_value_of_nan_statistic_witness :
  HypothesisApp.next_pValue (JStr "t") "" "2.26" nan 9 = Some nan
  /\ ChiSquareApp.next_pValue "" "2.26" nan 9 = Some nan.
Proof.
  apply AppFacts.p_value_of_nan_statistic. reflexivity.
Defined.

(** X8: on the chi-square screen that shows a p-value only the two-tailed
    one is capped, at [1] from above (or it is NaN).  A one-tailed p-value
    is the value of [cdf], or one minus it, as it comes: with one degree of
    freedom and a statistic of [2] the left-tailed one is above [1] and the
    right-tailed one below [0]. *)
Theorem chi_p_value_cap :
  (forall (E : MathEngine) (cvLeft cvRight : string) (testStat df v : float),
     is_set cvLeft = true -> is_set cvRight = true ->
     ChiSquareApp.next_pValue cvLeft cvRight testStat df = Some v ->
     is_nan v = true \/ (v <=? 1) = true)
  /\ match ChiSquareApp.next_pValue "3" "" 2 1 with
     | Some v => 1 <? v
     | None => false
     end = true
  /\ match ChiSquareApp.next_pValue "" "3" 2 1 with
     | Some v => v <? 0
     | None => false
     end = true.
Proof.
  split; [|split].
  - intros E. apply AppFacts.two_tailed_capped.
  - vm_compute. reflexivity.
  - vm_compute. reflexivity.
Qed.

Lemma chi_p_value_cap_witness :
  is_nan (Math_min 1.0 (2 * Math_min (ChiSquareUtils.cdf 1000 5)
                                     (1 - ChiSquareUtils.cdf 1000 5))) = true
  \/ (Math_min 1.0 (2 * Math_min (ChiSquareUtils.cdf 1000 5)
                                  (1 - ChiSquareUtils.cdf 1000 5)) <=? 1) = true.
Proof.
  apply (proj1 chi_p_value_cap RefEngine.engine "0.5"%string "40"%string 1000 5);
    reflexivity.
Defined.

End ReferenceRunApp.
